(** * a25: memory stream, retrieval scoring and reflection

    A shallow embedding of the memory/retrieval/reflection core of the
    [a25] Go library (packages [memory] and [reflect]) and the properties
    its specification states about it.

    Conventions of the embedding:
    - Go's [float32] and [float64] are IEEE 754 binary32 and binary64
      values, modelled by the Standard Library's [spec_float] with the
      format parameters (24,128) and (53,1024); every operation rounds to
      nearest even, as Go's arithmetic does (no fused multiply-add).
    - Go strings are byte strings: [string] is a list of [ascii] bytes.
    - The OpenAI client and the clock are the outside world: a state of type
      [W] that every call threads through.
    - A Go function returning [(T, error)] returns an [outcome T]; a run-time
      panic (index out of range) is the third outcome. *)

From Stdlib Require Import List String Ascii ZArith Bool Lia DecimalString.
From Stdlib Require Import Permutation Sorted Relations.
From Stdlib Require Import SpecFloat.
Import ListNotations.
Local Open Scope Z_scope.

(** ** IEEE 754 arithmetic *)

Module F64.
Definition prec : Z := 53.
Definition emax : Z := 1024.
Definition t := spec_float.
Definition add : t -> t -> t := SFadd prec emax.
Definition mul : t -> t -> t := SFmul prec emax.
Definition div : t -> t -> t := SFdiv prec emax.
Definition sqrt : t -> t := SFsqrt prec emax.
Definition neg : t -> t := SFopp.
(** [float64(z)] for an integer [z]. *)
Definition of_Z (z : Z) : t := binary_normalize prec emax z 0 false.
(** [float64(x)] for a [float32] [x]: exact, the value is renormalised. *)
Definition of_f32 (x : spec_float) : t :=
  match x with
  | S754_finite s m e => binary_round prec emax s m e
  | _ => x
  end.
End F64.

Module F32.
Definition prec : Z := 24.
Definition emax : Z := 128.
Definition t := spec_float.
Definition add : t -> t -> t := SFadd prec emax.
Definition mul : t -> t -> t := SFmul prec emax.
Definition div : t -> t -> t := SFdiv prec emax.
Definition eqb : t -> t -> bool := SFeqb.
Definition ltb : t -> t -> bool := SFltb.
Definition leb : t -> t -> bool := SFleb.
Definition zero : t := S754_zero false.
Definition one : t := binary_normalize prec emax 1 0 false.
Definition of_Z (z : Z) : t := binary_normalize prec emax z 0 false.
(** [float32(x)] for a [float64] [x]: rounds to nearest even. *)
Definition of_f64 (x : spec_float) : t :=
  match x with
  | S754_finite s m e => binary_round prec emax s m e
  | _ => x
  end.
(** [m * 2^e] rounded to [float32]. *)
Definition of_pow2 (m e : Z) : t := binary_normalize prec emax m e false.
End F32.

Definition float32 : Type := spec_float.
Definition float64 : Type := spec_float.


Definition is_zero (x : spec_float) : bool :=
  match x with S754_zero _ => true | _ => false end.

Definition is_finite_nonzero (x : spec_float) : bool :=
  match x with S754_finite _ _ _ => true | _ => false end.



(** ** [cosineSimilarity] (package memory) *)

(** The loop [for i := range a]: the three accumulators after the elements
    of [a] have been visited; [b[i]] panics ([None]) when [b] is shorter. *)
Fixpoint cosineLoop (a b : list float32) (dotProduct normA normB : float32)
  : option (float32 * float32 * float32) :=
  match a with
  | [] => Some (dotProduct, normA, normB)
  | ai :: a' =>
      match b with
      | [] => None
      | bi :: b' =>
          cosineLoop a' b'
            (F32.add dotProduct (F32.mul ai bi))
            (F32.add normA (F32.mul ai ai))
            (F32.add normB (F32.mul bi bi))
      end
  end.

Definition cosineSimilarity (a b : list float32) : option float32 :=
  match cosineLoop a b F32.zero F32.zero F32.zero with
  | None => None
  | Some (dotProduct, normA, normB) =>
      if F32.eqb normA F32.zero || F32.eqb normB F32.zero then Some F32.zero
      else
        Some (F32.div dotProduct
                (F32.of_f64 (F64.mul (F64.sqrt (F64.of_f32 normA))
                                     (F64.sqrt (F64.of_f32 normB)))))
  end.

(** The squared norm the loop accumulates does not depend on the other
    vector. *)
Definition sumSquares (v : list float32) (acc : float32) : float32 :=
  fold_left (fun acc x => F32.add acc (F32.mul x x)) v acc.

Definition swapNorms (r : float32 * float32 * float32) :=
  let '(d, na, nb) := r in (d, nb, na).

(** ** Errors, outcomes and the state monad *)

(** A Go [error] value: one raised by a collaborator, or one wrapped by
    [fmt.Errorf("...: %w", err)]. *)
Inductive error : Type :=
| Err (msg : string)
| Wrap (context : string) (inner : error).

Inductive outcome (A : Type) : Type :=
| Ok (a : A)
| Fail (e : error)
| Panic.
Arguments Ok {A} a.
Arguments Fail {A} e.
Arguments Panic {A}.

Definition succeeded {A} (r : outcome A) : bool :=
  match r with Ok _ => true | _ => false end.

(** A computation over a state [S]: the state it leaves is kept whatever
    the outcome, as a Go method on a pointer receiver keeps what it wrote
    before it returned an error. *)
Definition M (S A : Type) : Type := S -> S * outcome A.

Definition ret {S A} (a : A) : M S A := fun s => (s, Ok a).

Definition bind {S A B} (c : M S A) (k : A -> M S B) : M S B :=
  fun s =>
    match c s with
    | (s', Ok a) => k a s'
    | (s', Fail e) => (s', Fail e)
    | (s', Panic) => (s', Panic)
    end.

Definition throw {S A} (e : error) : M S A := fun s => (s, Fail e).
Definition panic {S A} : M S A := fun s => (s, Panic).
Definition orPanic {S A} (o : option A) : M S A :=
  match o with Some a => ret a | None => panic end.
Definition get {S} : M S S := fun s => (s, Ok s).
Definition modify {S} (f : S -> S) : M S unit := fun s => (f s, Ok tt).

(** [if err != nil { return fmt.Errorf(context, err) }] around a call. *)
Definition wrapping {S A} (context : string) (c : M S A) : M S A :=
  fun s =>
    match c s with
    | (s', Fail e) => (s', Fail (Wrap context e))
    | r => r
    end.

(** A call whose returned error is dropped by the caller; a panic is not. *)
Definition ignoring {S A} (c : M S A) : M S unit :=
  fun s =>
    match c s with
    | (s', Panic) => (s', Panic)
    | (s', _) => (s', Ok tt)
    end.

(** A computation on a component of the state. *)
Definition zoom {S T A} (proj : S -> T) (inj : T -> S -> S) (c : M T A) : M S A :=
  fun s => let (t', r) := c (proj s) in (inj t' s, r).

Declare Scope go_scope.
Delimit Scope go_scope with go.
Notation "x <- c ;; k" := (bind c (fun x => k))
  (at level 61, c at next level, right associativity) : go_scope.
Notation "c ;;; k" := (bind c (fun _ => k))
  (at level 61, right associativity) : go_scope.
Open Scope go_scope.

(** ** Time (package time) *)

(** An instant, in nanoseconds; a [Duration] is an [int64] of nanoseconds. *)
Definition Time : Type := Z.
Definition Duration : Type := Z.
Definition minDuration : Duration := - 2 ^ 63.
Definition maxDuration : Duration := 2 ^ 63 - 1.
Definition Hour : Duration := 3600000000000.

(** [t.Sub(u)]: the difference, saturated to the range of [Duration]. *)
Definition Sub (t u : Time) : Duration :=
  Z.max minDuration (Z.min maxDuration (t - u)).

(** [d.Hours()]: [float64(d / Hour) + float64(d % Hour) / (60*60*1e9)], with
    Go's truncated integer division. *)
Definition Hours (d : Duration) : float64 :=
  let hour := Z.quot d Hour in
  let nsec := Z.rem d Hour in
  F64.add (F64.of_Z hour) (F64.div (F64.of_Z nsec) (F64.of_Z 3600000000000)).

(** ** What the Go standard library provides

    Functions of the Go standard library whose code is not part of the
    repository and that the embedding does not spell out. *)
Class GoLibrary : Type := {
  (** [math.Exp] *)
  math_Exp : float64 -> float64;
  (** [strconv.ParseFloat(s, 32)] *)
  strconv_ParseFloat : string -> error + float64;
  (** [strings.TrimFunc(s, unicode.IsSpace)] and
      [strings.TrimRightFunc(s, unicode.IsSpace)]: the paths of
      [strings.TrimSpace] once it meets a byte outside ASCII. *)
  strings_TrimFunc_IsSpace : string -> string;
  strings_TrimRightFunc_IsSpace : string -> string;
  (** [sort.Slice(x, less)], with [less] read on the elements. *)
  sort_Slice : forall A : Type, (A -> A -> bool) -> list A -> list A
}.

(** The argument [math.Exp] receives for a memory last accessed two hours
    ago, the binary64 value nearest to the exponential of that argument
    (0.92004441462932...), and what is asked of [math.Exp] there: to be
    within one unit in the last place. *)
Definition minusTwoHoursOver24 : float64 :=
  F64.div (F64.neg (Hours (2 * Hour))) (F64.of_Z 24).

Definition expMinusTwoHoursOver24 : float64 :=
  S754_finite false 8287023365777853 (-53).

Definition expAccurateAtTwoHours `{GoLibrary} : Prop :=
  math_Exp minusTwoHoursOver24 = SFpred F64.prec F64.emax expMinusTwoHoursOver24
  \/ math_Exp minusTwoHoursOver24 = expMinusTwoHoursOver24
  \/ math_Exp minusTwoHoursOver24
     = SFsucc F64.prec F64.emax expMinusTwoHoursOver24.

(** [x] is a number between 2.215 and 2.225: within 0.01 of 2.220. *)
Definition near2220 (x : float32) : Prop :=
  F32.leb (F32.div (F32.of_Z 2215) (F32.of_Z 1000)) x = true
  /\ F32.leb x (F32.div (F32.of_Z 2225) (F32.of_Z 1000)) = true.

(** The clock of the outside world: reading it gives the instant and the
    world a moment later. *)
Class Clock (W : Type) : Type := readClock : W -> W * Time.

(** [time.Now()] *)
Definition time_Now {W} `{Clock W} : M W Time :=
  fun w => let (w', t) := readClock w in (w', Ok t).

(** [time.Since(t)] is [time.Now().Sub(t)]. *)
Definition time_Since {W} `{Clock W} (t : Time) : M W Duration :=
  now <- time_Now;; ret (Sub now t).

(** What [sort.Slice] asks of [less] over the elements it sorts: a strict
    order, transitive both where it holds and where it does not. *)
Definition strictWeakOrder {A} (less : A -> A -> bool) (l : list A) : Prop :=
  (forall x, In x l -> less x x = false)
  /\ (forall x y z, In x l -> In y l -> In z l ->
       less x y = true -> less y z = true -> less x z = true)
  /\ (forall x y z, In x l -> In y l -> In z l ->
       less x y = false -> less y z = false -> less x z = false).

(** What [sort.Slice] promises: the elements are rearranged, and no element
    must sort before its predecessor when [less] is such an order. It does
    not promise a stable sort. *)
Definition sortSliceContract `{GoLibrary} : Prop :=
  forall (A : Type) (less : A -> A -> bool) (l : list A),
    Permutation l (sort_Slice A less l)
    /\ (strictWeakOrder less l ->
        Sorted (fun x y => less y x = false) (sort_Slice A less l)).

(** ** Byte strings (package strings, fmt) *)

Definition asciiSpace (c : ascii) : bool :=
  ((c =? "009") || (c =? "010") || (c =? "011") || (c =? "012")
   || (c =? "013") || (c =? " "))%char.

(** [c >= utf8.RuneSelf]: the byte starts or continues a multi-byte rune. *)
Definition geRuneSelf (c : ascii) : bool :=
  let 'Ascii _ _ _ _ _ _ _ b7 := c in b7.

Fixpoint dropWhile {A} (f : A -> bool) (l : list A) : list A :=
  match l with
  | [] => []
  | x :: l' => if f x then dropWhile f l' else l
  end.

(** The first loop of [strings.TrimSpace]: [s[start:]]. *)
Fixpoint trimStart (s : string) : string :=
  match s with
  | EmptyString => EmptyString
  | String c s' => if asciiSpace c then trimStart s' else s
  end.

(** The second loop: [s[start:stop]], [stop] moved left over ASCII spaces. *)
Definition trimStop (s : string) : string :=
  string_of_list_ascii
    (rev (dropWhile asciiSpace (rev (list_ascii_of_string s)))).

Definition lastByte (s : string) : option ascii :=
  match rev (list_ascii_of_string s) with
  | [] => None
  | c :: _ => Some c
  end.

Definition TrimSpace `{GoLibrary} (s : string) : string :=
  let s1 := trimStart s in
  match s1 with
  | EmptyString => EmptyString
  | String c _ =>
      if geRuneSelf c then strings_TrimFunc_IsSpace s1
      else
        let s2 := trimStop s1 in
        match lastByte s2 with
        | Some d => if geRuneSelf d then strings_TrimRightFunc_IsSpace s2 else s2
        | None => s2
        end
  end.

(** [strings.Split(s, sep)] for a one-byte separator. *)
Fixpoint Split (s : string) (sep : ascii) : list string :=
  match s with
  | EmptyString => [EmptyString]
  | String c s' =>
      if (c =? sep)%char then EmptyString :: Split s' sep
      else
        match Split s' sep with
        | h :: t => String c h :: t
        | [] => [String c EmptyString]
        end
  end.

(** [strings.Index(s, sep)] for a one-byte [sep]: [-1] when absent. *)
Fixpoint Index (s : string) (sep : ascii) : Z :=
  match s with
  | EmptyString => -1
  | String c s' =>
      if (c =? sep)%char then 0
      else let i := Index s' sep in if i <? 0 then -1 else i + 1
  end.

(** [s[n:]] and [s[:n]] for [n] within the string. *)
Fixpoint sliceFrom (n : nat) (s : string) : string :=
  match n, s with
  | S n', String _ s' => sliceFrom n' s'
  | _, _ => s
  end.

Fixpoint sliceTo (n : nat) (s : string) : string :=
  match n, s with
  | S n', String c s' => String c (sliceTo n' s')
  | _, _ => EmptyString
  end.

(** [strings.Join(elems, sep)] *)
Definition Join (elems : list string) (sep : string) : string :=
  String.concat sep elems.

(** [%d] of [fmt.Sprintf] for a non-negative [int]. *)
Definition itoa (n : nat) : string := NilEmpty.string_of_uint (Nat.to_uint n).

Definition newline : string := String "010" EmptyString.
Definition dquote : string := String "034" EmptyString.

(** ** The OpenAI API types the code reads and writes (package go-openai) *)

Module openai.
Record ChatCompletionMessage : Type := {
  Role : string;
  Content : string
}.

Record ChatCompletionRequest : Type := {
  Model : string;
  Messages : list ChatCompletionMessage;
  Temperature : float32
}.

Record ChatCompletionChoice : Type := { Message : ChatCompletionMessage }.

Record ChatCompletionResponse : Type := {
  Choices : list ChatCompletionChoice
}.

Record EmbeddingRequest : Type := {
  Input : list string;
  EmbeddingModel : string
}.

Record Embedding : Type := { Vector : list float32 }.

Record EmbeddingResponse : Type := { Data : list Embedding }.

Definition GPT4oMini : string := "gpt-4o-mini".
Definition SmallEmbedding3 : string := "text-embedding-3-small".

(** The request every prompt of the repository builds: a system and a
    user message, temperature 1. *)
Definition chat (sysPrompt usrPrompt : string) : ChatCompletionRequest :=
  {| Model := GPT4oMini;
     Messages := [ {| Role := "system"; Content := sysPrompt |};
                   {| Role := "user"; Content := usrPrompt |} ];
     Temperature := F32.one |}.

(** [resp.Choices[0].Message.Content] *)
Definition firstContent {S} (resp : ChatCompletionResponse) : M S string :=
  match Choices resp with
  | [] => panic
  | choice :: _ => ret (Content (Message choice))
  end.
End openai.

(** ** Package memory *)

Module memory.
Record OpenAIClient (W : Type) : Type := {
  CreateChatCompletion :
    openai.ChatCompletionRequest -> M W openai.ChatCompletionResponse;
  CreateEmbeddings :
    openai.EmbeddingRequest -> M W openai.EmbeddingResponse
}.
Arguments CreateChatCompletion {W} _ _ _.
Arguments CreateEmbeddings {W} _ _ _.

Record MemoryObject : Type := {
  Description : string;
  CreationTime : Time;
  LastAccessedTime : Time;
  Importance : float64;
  Embedding : list float32
}.

Record MemoryStream (W : Type) : Type := {
  Client : OpenAIClient W;
  Memories : list MemoryObject
}.
Arguments Client {W} _.
Arguments Memories {W} _.

Record RetrievedMemory : Type := {
  Memory : MemoryObject;
  Score : float32
}.

(** [retrieved[i].Score > retrieved[j].Score], the [less] of the sort. *)
Definition byScoreDesc (ri rj : RetrievedMemory) : bool :=
  F32.ltb (Score rj) (Score ri).

(** [m] with [LastAccessedTime] set to [now]. *)
Definition accessedAt (now : Time) (m : MemoryObject) : MemoryObject :=
  {| Description := Description m;
     CreationTime := CreationTime m;
     LastAccessedTime := now;
     Importance := Importance m;
     Embedding := Embedding m |}.

Fixpoint setNth {A} (i : nat) (x : A) (l : list A) : list A :=
  match l, i with
  | [], _ => []
  | _ :: l', O => x :: l'
  | y :: l', S i' => y :: setNth i' x l'
  end.

Section WithWorld.
Context {W : Type} `{Clock W} `{GoLibrary}.

(** The state a method of [*MemoryStream] runs in: the outside world
    and the stream behind the pointer. *)
Definition St : Type := W * MemoryStream W.

Definition external {A} (c : M W A) : M St A :=
  zoom fst (fun w s => (w, snd s)) c.

Definition stream : M St (MemoryStream W) := fun s => (s, Ok (snd s)).

Definition setMemories (l : list MemoryObject) : M St unit :=
  modify (fun s : St => (fst s, {| Client := Client (snd s); Memories := l |})).

Definition getEmbedding (text : string) (client : OpenAIClient W)
  : M W (list float32) :=
  resp <- CreateEmbeddings client
            {| openai.Input := [text];
               openai.EmbeddingModel := openai.SmallEmbedding3 |};;
  match openai.Data resp with
  | [] => panic
  | d :: _ => ret (openai.Vector d)
  end.

Definition parseImportanceRating (response : string) : M W float64 :=
  match strconv_ParseFloat (TrimSpace response) with
  | inl err => throw err
  | inr rating => ret rating
  end.

Definition importancePrompt : string :=
  "On a scale of 1 to 10, where 1 is mundane (e.g., brushing teeth) and 10 is poignant (e.g., a life-changing event), rate the importance of the given reflection.  Output a single float value only, e.g., 7.5.  Include no other comment or opinion.".

Definition rateImportance (reflection : string) (client : OpenAIClient W)
  : M W float64 :=
  resp <- CreateChatCompletion client
            (openai.chat importancePrompt reflection);;
  content <- openai.firstContent resp;;
  parseImportanceRating content.

Definition AddMemory (description : string) : M St unit :=
  ms <- stream;;
  embed <- wrapping "failed to get embedding: "
             (external (getEmbedding description (Client ms)));;
  importance <- wrapping "failed to rate importance: "
                  (external (rateImportance description (Client ms)));;
  created <- external time_Now;;
  accessed <- external time_Now;;
  let memory :=
    {| Description := description;
       CreationTime := created;
       LastAccessedTime := accessed;
       Importance := importance;
       Embedding := embed |} in
  ms <- stream;;
  setMemories (Memories ms ++ [memory]).

(** [ms.Memories[len(ms.Memories)-n:]], [n] capped at the length; a
    negative [n] is a slice out of range. *)
Definition GetRecentMemories (n : Z) (ms : MemoryStream W)
  : option (list MemoryObject) :=
  let len := Z.of_nat (List.length (Memories ms)) in
  let n := if len <? n then len else n in
  if n <? 0 then None
  else Some (skipn (Z.to_nat (len - n)) (Memories ms)).

(** The score of one memory, from its relevance: the lines from
    "recencyScore" to "totalScore" of the loop. *)
Definition totalScore (relevance : float32) (sinceAccess : Duration)
           (importance : float64) : float32 :=
  let hoursSinceAccess := Hours sinceAccess in
  let recencyScore :=
    F32.of_f64
      (math_Exp (F64.div (F64.neg hoursSinceAccess) (F64.of_Z 24))) in
  let importanceScore := F64.div importance (F64.of_Z 10) in
  F32.add (F32.add relevance recencyScore) (F32.of_f64 importanceScore).

(** [ms.Memories[i].LastAccessedTime = time.Now()] *)
Definition touch (i : nat) : M St unit :=
  now <- external time_Now;;
  ms <- stream;;
  match nth_error (Memories ms) i with
  | None => panic
  | Some m => setMemories (setNth i (accessedAt now m) (Memories ms))
  end.

(** The loop [for i, memory := range ms.Memories]: [rest] is what is
    left of the ranged slice, [i] the index of its head. *)
Fixpoint scan (queryEmbedding : list float32) (i : nat)
         (rest : list MemoryObject) (retrieved : list RetrievedMemory)
  : M St (list RetrievedMemory) :=
  match rest with
  | [] => ret retrieved
  | memory :: rest' =>
      ms <- stream;;
      memoryEmbedding <-
        external (getEmbedding (Description memory) (Client ms));;
      relevance <- orPanic (cosineSimilarity queryEmbedding memoryEmbedding);;
      sinceAccess <- external (time_Since (LastAccessedTime memory));;
      let score := totalScore relevance sinceAccess (Importance memory) in
      touch i;;;
      scan queryEmbedding (S i) rest'
        (retrieved ++ [ {| Memory := memory; Score := score |} ])
  end.

Definition RetrieveMemories (query : string)
  : M St (list RetrievedMemory) :=
  ms <- stream;;
  queryEmbedding <- external (getEmbedding query (Client ms));;
  retrieved <- scan queryEmbedding 0 (Memories ms) [];;
  ret (sort_Slice RetrievedMemory byScoreDesc retrieved).
End WithWorld.

(** *** Vocabulary of the properties *)

(** Two records that differ at most in [LastAccessedTime]. *)
Definition sameButAccess (m m' : MemoryObject) : Prop :=
  Description m' = Description m
  /\ CreationTime m' = CreationTime m
  /\ Importance m' = Importance m
  /\ Embedding m' = Embedding m.

Section Runs.
Context {W : Type} `{Clock W} `{GoLibrary} (client : OpenAIClient W).

(** One thing that happens to the world: the clock is read, or the
    service is called. *)
Inductive event : W -> W -> Prop :=
| event_clock w : event w (fst (readClock w))
| event_embedding req w : event w (fst (CreateEmbeddings client req w))
| event_completion req w :
    event w (fst (CreateChatCompletion client req w)).

(** [during w w']: a run that starts in [w] can pass through [w']. *)
Definition during : W -> W -> Prop := clos_refl_trans W event.

(** What a complete pass of the loop of [RetrieveMemories] does, from
    world [w] over the records [rest]: the world it ends in, the
    records as it leaves them, and the scored copies it collects. *)
Inductive scanned (queryEmbedding : list float32)
  : W -> list MemoryObject -> W -> list MemoryObject
    -> list RetrievedMemory -> Prop :=
| scanned_nil w : scanned queryEmbedding w [] w [] []
| scanned_cons w memory rest w1 memoryEmbedding relevance w2 now w3
               accessed w' touched retrieved :
    getEmbedding (Description memory) client w = (w1, Ok memoryEmbedding) ->
    cosineSimilarity queryEmbedding memoryEmbedding = Some relevance ->
    readClock w1 = (w2, now) ->
    readClock w2 = (w3, accessed) ->
    scanned queryEmbedding w3 rest w' touched retrieved ->
    scanned queryEmbedding w (memory :: rest) w'
      (accessedAt accessed memory :: touched)
      ({| Memory := memory;
          Score := totalScore relevance
                     (Sub now (LastAccessedTime memory))
                     (Importance memory) |} :: retrieved).

(** [grows ms ms']: the stream [ms'] holds the records of [ms], changed
    at most in their access times, followed by records appended since. *)
Definition grows (ms ms' : MemoryStream W) : Prop :=
  Client ms' = Client ms
  /\ exists kept added,
      Memories ms' = kept ++ added
      /\ Forall2 sameButAccess (Memories ms) kept.

(** How a complete pass scores one record: with the embedding the
  service returns for its description during the pass and the time
  since its last access, read off the clock during the pass. *)
Definition scoredDuring (q : list float32)
         (w : W) (memory : MemoryObject) (r : RetrievedMemory) : Prop :=
Memory r = memory
/\ exists w1 w2 memoryEmbedding relevance,
    during w w1
    /\ getEmbedding (Description memory) client w1
       = (w2, Ok memoryEmbedding)
    /\ cosineSimilarity q memoryEmbedding = Some relevance
    /\ Score r =
         totalScore relevance
           (Sub (snd (readClock w2)) (LastAccessedTime memory))
           (Importance memory).

(** How a complete pass leaves one record: accessed at an instant read
  off the clock during the pass. *)
Definition touchedDuring (w : W)
         (memory memory' : MemoryObject) : Prop :=
exists w1, during w w1
           /\ memory' = accessedAt (snd (readClock w1)) memory.
End Runs.
End memory.

(** ** Package reflect *)

Module reflect.
Import memory.

Record OpenAIClient (W : Type) : Type := {
  CreateChatCompletion :
    openai.ChatCompletionRequest -> M W openai.ChatCompletionResponse
}.
Arguments CreateChatCompletion {W} _ _ _.

Record Reflector (W : Type) : Type := { Client : OpenAIClient W }.
Arguments Client {W} _.

(** [len(line) > 2 && (line[1] == '.' || line[1] == ')')] *)
Definition numbered (line : string) : bool :=
  (2 <? String.length line)%nat
  && match String.get 1 line with
     | Some c => ((c =? ".") || (c =? ")"))%char
     | None => false
     end.

Section WithWorld.
Context {W : Type} `{Clock W} `{GoLibrary}.

(** The loop of [parseQuestions] over the lines still to read. *)
Fixpoint parseQuestionsLoop (lines questions : list string) : list string :=
  match lines with
  | [] => questions
  | line :: lines' =>
      let line := TrimSpace line in
      if (line =? "")%string then parseQuestionsLoop lines' questions
      else
        let line :=
          if numbered line then TrimSpace (sliceFrom 2 line) else line in
        parseQuestionsLoop lines' (questions ++ [line])
  end.

Definition parseQuestions (output : string) : list string :=
  parseQuestionsLoop (Split output "010") [].

(** [idx := strings.Index(line, "("); if idx != -1 { line = line[:idx] }] *)
Definition beforeParen (line : string) : string :=
  let idx := Index line "(" in
  if idx =? -1 then line else sliceTo (Z.to_nat idx) line.

(** The loop of [parseInsights] over the lines still to read. *)
Fixpoint parseInsightsLoop (lines insights : list string) : list string :=
  match lines with
  | [] => insights
  | line :: lines' =>
      let line := TrimSpace line in
      if (line =? "")%string then parseInsightsLoop lines' insights
      else
        let line :=
          if numbered line then TrimSpace (sliceFrom 2 line) else line in
        let line := beforeParen line in
        parseInsightsLoop lines' (insights ++ [TrimSpace line])
  end.

Definition parseInsights (output : string) : list string :=
  parseInsightsLoop (Split output "010") [].

Definition questionsPrompt : string :=
  "Given only the information provided below, what are 3 most salient high-level questions we can answer about the subjects in the statements?".

Definition generateReflectionQuestions (memories : list string)
           (client : OpenAIClient W) : M W (list string) :=
  let usrPrompt := Join memories newline in
  resp <- CreateChatCompletion client
            (openai.chat questionsPrompt usrPrompt);;
  output <- openai.firstContent resp;;
  ret (parseQuestions output).

Definition insightsPrompt : string :=
  "What 5 high-level insights can you infer from the given statements? (example format: Insight (because of statements 1, 2, 3))".

(** [fmt.Sprintf("%d. %s", idx+1, mem.Memory.Description)] for each
    retrieved memory, [idx] counted from the given index. *)
Fixpoint numberedTexts (idx : nat) (memories : list RetrievedMemory)
  : list string :=
  match memories with
  | [] => []
  | mem :: memories' =>
      (itoa (idx + 1) ++ ". " ++ Description (Memory mem))%string
        :: numberedTexts (S idx) memories'
  end.

Definition insightsUserPrompt (question : string)
           (memories : list RetrievedMemory) : string :=
  ("Statements about the question " ++ dquote ++ question ++ dquote
     ++ ":" ++ newline ++ Join (numberedTexts 0 memories) newline)%string.

Definition generateInsights (question : string)
           (memories : list RetrievedMemory) (client : OpenAIClient W)
  : M W (list string) :=
  resp <- CreateChatCompletion client
            (openai.chat insightsPrompt
               (insightsUserPrompt question memories));;
  output <- openai.firstContent resp;;
  ret (parseInsights output).

(** [for _, insight := range insights { ms.AddMemory(insight) }]: the
    error [AddMemory] returns is not looked at. *)
Fixpoint addInsights (insights : list string) : M St unit :=
  match insights with
  | [] => ret tt
  | insight :: insights' =>
      ignoring (AddMemory insight);;; addInsights insights'
  end.

(** The body of [for _, question := range questions]. *)
Definition reflectOn (r : Reflector W) (question : string) : M St unit :=
  retrievedMemories <- RetrieveMemories question;;
  insights <- external
                (generateInsights question retrievedMemories (Client r));;
  addInsights insights.

Fixpoint reflectOnAll (r : Reflector W) (questions : list string)
  : M St unit :=
  match questions with
  | [] => ret tt
  | question :: questions' =>
      reflectOn r question;;; reflectOnAll r questions'
  end.

(** [Reflect(memories, ms)], [ms] being the stream of the state. *)
Definition Reflect (r : Reflector W) (memories : list MemoryObject)
  : M St unit :=
  let memoryTexts := map Description memories in
  questions <- external
                 (generateReflectionQuestions memoryTexts (Client r));;
  reflectOnAll r questions.

(** *** Vocabulary of the properties *)

(** The rest of a pass once the memories for [question] are retrieved. *)
Definition afterRetrieval (r : Reflector W) (question : string)
           (retrieved : list RetrievedMemory) (rest : list string)
  : M St unit :=
  insights <- external (generateInsights question retrieved (Client r));;
  addInsights insights;;; reflectOnAll r rest.


(** What [parseQuestions] makes of one line: nothing when it is blank. *)
Definition questionOf (raw : string) : list string :=
  let line := TrimSpace raw in
  if (line =? "")%string then []
  else [if numbered line then TrimSpace (sliceFrom 2 line) else line].

(** What [parseInsights] makes of one line. *)
Definition insightOf (raw : string) : list string :=
  let line := TrimSpace raw in
  if (line =? "")%string then []
  else [TrimSpace (beforeParen (if numbered line
                                then TrimSpace (sliceFrom 2 line)
                                else line))].
End WithWorld.
End reflect.

(** * More of the code, and the vocabulary of its properties *)

(** Two records that differ at most in the embedding they store. *)
Definition sameButEmbedding (m m' : memory.MemoryObject) : Prop :=
  memory.Description m' = memory.Description m
  /\ memory.CreationTime m' = memory.CreationTime m
  /\ memory.LastAccessedTime m' = memory.LastAccessedTime m
  /\ memory.Importance m' = memory.Importance m.

(** Two scored copies with the same score, of records that differ at most
    in the embedding they store. *)
Definition sameScore (r r' : memory.RetrievedMemory) : Prop :=
  memory.Score r' = memory.Score r
  /\ sameButEmbedding (memory.Memory r) (memory.Memory r').

(** Two outcomes of the same kind, with results related by [R]. *)
Definition sameOutcome {A} (R : A -> A -> Prop) (r r' : outcome A) : Prop :=
  match r, r' with
  | Ok a, Ok a' => R a a'
  | Fail e, Fail e' => e = e'
  | Panic, Panic => True
  | _, _ => False
  end.

(** [subsequence kept l]: [kept] is [l] with some elements left out. *)
Inductive subsequence {A : Type} : list A -> list A -> Prop :=
| subsequence_nil : subsequence [] []
| subsequence_keep x kept l :
    subsequence kept l -> subsequence (x :: kept) (x :: l)
| subsequence_skip x kept l :
    subsequence kept l -> subsequence kept (x :: l).

(** The descriptions of the records of a stream, in order. *)
Definition descriptions {W} (ms : memory.MemoryStream W) : list string :=
  map memory.Description (memory.Memories ms).

(** With the client of [ms], [AddMemory] succeeds whatever the text, the
    world and the records of the stream. *)
Definition appendsReliably {W} `{Clock W} `{GoLibrary}
           (ms : memory.MemoryStream W) : Prop :=
  forall description w ms0,
    memory.Client ms0 = memory.Client ms ->
    snd (memory.AddMemory description (w, ms0)) = Ok tt.

(** The insights [generateInsights] returns for a question, when it
    returns some, are [ins question]. *)
Definition insightsAre {W} `{GoLibrary} (r : reflect.Reflector W)
           (ins : string -> list string) : Prop :=
  forall question retrieved w w' insights,
    reflect.generateInsights question retrieved (reflect.Client r) w
      = (w', Ok insights) ->
    insights = ins question.

(** The bytes of a string. *)
Definition bytes (s : string) : list ascii := list_ascii_of_string s.

(** An ASCII byte that is not white space. *)
Definition plainByte (c : ascii) : bool :=
  negb (asciiSpace c) && negb (geRuneSelf c).

(** A text that begins and ends with ASCII bytes that are not white
    space: [strings.TrimSpace] has nothing to trim. *)
Definition tidy (s : string) : Prop :=
  match s with
  | String c _ => plainByte c = true
  | EmptyString => False
  end
  /\ match lastByte s with
     | Some d => plainByte d = true
     | None => False
     end.

(** A text without the byte [c]. *)
Definition without (c : ascii) (s : string) : Prop := ~ In c (bytes s).

(** A line that [parseQuestions] and [parseInsights] do not skip. *)
Definition notBlank `{GoLibrary} (raw : string) : bool :=
  negb (TrimSpace raw =? "")%string.


(** ** More of packages strings, time and fmt *)

(** What else the Go standard library provides and the embedding does not
    spell out. *)
Class GoTexts : Type := {
  (** [strings.ToLower] *)
  strings_ToLower : string -> string;
  (** [time.Parse("3:04 PM", s)] *)
  time_Parse_Kitchen : string -> error + Time;
  (** [t.Format("January 2, 2006")] *)
  time_Format_Date : Time -> string
}.

(** [strings.HasPrefix(s, prefix)] *)
Fixpoint HasPrefix (s prefix : string) : bool :=
  match prefix, s with
  | EmptyString, _ => true
  | String _ _, EmptyString => false
  | String p prefix', String c s' => (c =? p)%char && HasPrefix s' prefix'
  end.

(** [strings.TrimPrefix(s, prefix)] *)
Definition TrimPrefix (s prefix : string) : string :=
  if HasPrefix s prefix then sliceFrom (String.length prefix) s else s.

(** [strings.Index(s, substr)] for a non-empty [substr]: where it first
    occurs in [s]. *)
Fixpoint IndexString (s substr : string) : option nat :=
  if HasPrefix s substr then Some O
  else
    match s with
    | EmptyString => None
    | String _ s' => option_map S (IndexString s' substr)
    end.

(** [strings.Contains(s, substr)] *)
Definition Contains (s substr : string) : bool :=
  match IndexString s substr with Some _ => true | None => false end.

(** [strings.SplitN(s, sep, 2)] for a non-empty [sep]: [s] cut at the
    first [sep], or [s] alone. *)
Definition SplitN2 (s sep : string) : list string :=
  match IndexString s sep with
  | Some m => [sliceTo m s; sliceFrom (m + String.length sep) s]
  | None => [s]
  end.

(** [strings.Split(s, sep)] for a non-empty [sep]; every cut takes at
    least a byte off [s], so [fuel] cuts are enough when [fuel] is the
    length of [s]. *)
Fixpoint splitString (fuel : nat) (s sep : string) : list string :=
  match fuel with
  | O => [s]
  | S fuel' =>
      match IndexString s sep with
      | Some m =>
          sliceTo m s
            :: splitString fuel' (sliceFrom (m + String.length sep) s) sep
      | None => [s]
      end
  end.

Definition SplitString (s sep : string) : list string :=
  splitString (String.length s) s sep.

(** [strings.Trim(s, cutset)] for a cutset of one ASCII byte. *)
Fixpoint trimLeftByte (s : string) (c : ascii) : string :=
  match s with
  | String x s' => if (x =? c)%char then trimLeftByte s' c else s
  | EmptyString => EmptyString
  end.

Definition trimRightByte (s : string) (c : ascii) : string :=
  string_of_list_ascii
    (rev (dropWhile (fun x => (x =? c)%char) (rev (list_ascii_of_string s)))).

Definition TrimByte (s : string) (c : ascii) : string :=
  trimLeftByte (trimRightByte s c) c.

(** ** Package plan *)

(** [uuid.NewString()]: the outside world hands out identifiers. *)
Class UUIDs (W : Type) : Type := newUUID : W -> W * string.

Definition uuid_NewString {W} `{UUIDs W} : M W string :=
  fun w => let (w', id) := newUUID w in (w', Ok id).

(** The loop of [sort.Search]: [for i < j], with [h := (i+j)/2]; [f]
    panics ([None]) when the closure it stands for does. The loop runs at
    most [fuel] times. *)
Fixpoint searchLoop (fuel : nat) (f : nat -> option bool) (i j : nat)
  : option nat :=
  if (i <? j)%nat then
    match fuel with
    | O => Some i
    | S fuel' =>
        let h := ((i + j) / 2)%nat in
        match f h with
        | None => None
        | Some false => searchLoop fuel' f (h + 1) j
        | Some true => searchLoop fuel' f i h
        end
    end
  else Some i.

(** [sort.Search(n, f)]: the interval halves at every turn, so [n] turns
    are enough. *)
Definition sort_Search (n : nat) (f : nat -> option bool) : option nat :=
  searchLoop n f 0 n.

Module plan.
Record Action : Type := {
  ID : string;
  Description : string;
  Location : string;
  StartTime : Time;
  Duration : Duration
}.

Record Plan : Type := { actions : list Action }.

Definition Actions (p : Plan) : list Action := actions p.

(** [&p.actions[0]]: a panic on an empty plan. *)
Definition NextAction (p : Plan) : option Action := hd_error (actions p).

Definition withID (id : string) (a : Action) : Action :=
  {| ID := id;
     Description := Description a;
     Location := Location a;
     StartTime := StartTime a;
     Duration := Duration a |}.

(** [p.actions[i].StartTime.After(a.StartTime)] *)
Definition startsAfter (p : Plan) (a : Action) (i : nat) : option bool :=
  match nth_error (actions p) i with
  | Some x => Some (StartTime a <? StartTime x)
  | None => None
  end.

(** [AddAction]: the plan it leaves and whether it panicked. *)
Definition AddAction {W} `{UUIDs W} (a : Action) : M (W * Plan) unit :=
  fun s =>
    let '(w, p) := s in
    let (w', id) := newUUID w in
    let a := withID id a in
    match sort_Search (List.length (actions p)) (startsAfter p a) with
    | None => ((w', p), Panic)
    | Some i =>
        ((w', {| actions := firstn i (actions p)
                            ++ [a] ++ skipn i (actions p) |}), Ok tt)
    end.

(** [p.actions[i].StartTime.Before(p.actions[j].StartTime)], the [less]
    of the sort. *)
Definition startsBefore (x y : Action) : bool := StartTime x <? StartTime y.

Definition SetActions `{GoLibrary} (p : Plan) (acts : list Action) : Plan :=
  {| actions := sort_Slice Action startsBefore acts |}.

(** The loop of [RemoveAction]: [seen] are the actions passed over. *)
Fixpoint removeLoop (id : string) (seen rest : list Action)
  : option (list Action) :=
  match rest with
  | [] => None
  | a :: rest' =>
      if (ID a =? id)%string then Some (seen ++ rest')
      else removeLoop id (seen ++ [a]) rest'
  end.

Definition RemoveAction (id : string) (p : Plan) : Plan * outcome unit :=
  match removeLoop id [] (actions p) with
  | Some remaining => ({| actions := remaining |}, Ok tt)
  | None => (p, Fail (Err "action id not found"))
  end.

(** A plan in chronological order. *)
Definition chronological (l : list Action) : Prop :=
  Sorted (fun x y => StartTime x <= StartTime y) l.

(** *** The planner *)

Record OpenAIClient (W : Type) : Type := {
  CreateChatCompletion :
    openai.ChatCompletionRequest -> M W openai.ChatCompletionResponse
}.
Arguments CreateChatCompletion {W} _ _ _.

Record Planner (W : Type) : Type := { Client : OpenAIClient W }.
Arguments Client {W} _.

(** What the loop of [parsePlan] reads in one line, when it does not skip
    it: the description, the start time and the duration (a
    [time.Duration], in nanoseconds) of an action. *)
Definition parseLine `{GoLibrary} `{GoTexts} (line : string)
  : option (string * Time * Z) :=
  let line := TrimSpace line in
  if (line =? "")%string then None
  else if HasPrefix line "**High-Level Plan for the Day" then None
  else if HasPrefix line "-" then None
  else
    let line := TrimByte line "*" in
    if negb (Contains line ": ") || negb (Contains line "-") then None
    else
      match SplitN2 line ": " with
      | [timeRange; rest] =>
          match SplitString (TrimSpace timeRange) " - " with
          | [from; to] =>
              match time_Parse_Kitchen (TrimSpace from) with
              | inl _ => None
              | inr startTime =>
                  match time_Parse_Kitchen (TrimSpace to) with
                  | inl _ => None
                  | inr endTime =>
                      let duration := Sub endTime startTime in
                      if duration <=? 0 then None
                      else Some (TrimSpace rest, startTime, duration)
                  end
              end
          | _ => None
          end
      | _ => None
      end.

(** The loop of [parsePlan] over the lines still to read; an action takes
    its identifier from the world when it is created. *)
Fixpoint parsePlanLoop {W} `{UUIDs W} `{GoLibrary} `{GoTexts}
         (lines : list string) (acts : list Action) : M W (list Action) :=
  match lines with
  | [] => ret acts
  | line :: lines' =>
      match parseLine line with
      | None => parsePlanLoop lines' acts
      | Some (description, startTime, duration) =>
          id <- uuid_NewString;;
          parsePlanLoop lines'
            (acts ++ [ {| ID := id;
                          Description := description;
                          Location := "";
                          StartTime := startTime;
                          Duration := duration |} ])
      end
  end.

Definition parsePlan {W} `{UUIDs W} `{GoLibrary} `{GoTexts}
           (planText : string) : M W (list Action) :=
  acts <- parsePlanLoop (Split planText "010") [];;
  match acts with
  | [] => throw (Err "no actions found in plan")
  | _ => ret acts
  end.

Definition planPrompt : string :=
  ("You are an expert planner. Your task is to generate a detailed, structured daily plan for the agent based on their summary. "
     ++ newline
     ++ "The plan should adhere to the following format:"
     ++ newline
     ++ "1. The plan title should be formatted as: '**High-Level Plan for the Day: [Date]**'."
     ++ newline
     ++ "2. Include clear time blocks (e.g., '**8:00 AM - 9:00 AM: Morning Routine**')."
     ++ newline
     ++ "3. Under each time block, provide a bullet list with specific activities. Each bullet should describe actions or goals within that time block."
     ++ newline
     ++ "4. Ensure consistency, clarity, and that the activities align with the agent's description and traits.")%string.

Definition PlanDay {W} `{UUIDs W} `{GoLibrary} `{GoTexts}
           (p : Planner W) (currentTime : Time) (agentSummary : string)
  : M W (list Action) :=
  let usrPrompt :=
    ("Agent Summary:" ++ newline ++ agentSummary ++ newline
       ++ "Current Time: " ++ time_Format_Date currentTime)%string in
  resp <- CreateChatCompletion (Client p) (openai.chat planPrompt usrPrompt);;
  content <- openai.firstContent resp;;
  parsePlan content.

(** An action [parsePlan] can return: it lasts, and it has no place. *)
Definition wellFormed (a : Action) : Prop :=
  0 < Duration a /\ Location a = EmptyString.
End plan.

(** ** Package react *)

Module react.
Record OpenAIClient (W : Type) : Type := {
  CreateChatCompletion :
    openai.ChatCompletionRequest -> M W openai.ChatCompletionResponse
}.
Arguments CreateChatCompletion {W} _ _ _.

Record Reactor (W : Type) : Type := { Client : OpenAIClient W }.
Arguments Client {W} _.

Definition reactPrompt : string :=
  ("Based on the agent's context and observation, determine if the agent should react. "
     ++ newline
     ++ "Respond with 'Yes' or 'No' and provide a brief explanation if 'Yes'.")%string.

(** What [ToObservation] makes of the text of the completion. *)
Definition decide `{GoLibrary} `{GoTexts} (response : string)
  : bool * string :=
  let response := TrimSpace (strings_ToLower response) in
  if HasPrefix response "yes"
  then (true, TrimSpace (TrimPrefix response "yes"))
  else (false, EmptyString).

Definition ToObservation {W} `{GoLibrary} `{GoTexts} (r : Reactor W)
           (observation contextSummary : string) (currentTime : Time)
  : M W (bool * string) :=
  let usrPrompt :=
    ("Agent Context:" ++ newline ++ contextSummary ++ newline
       ++ "Observation:" ++ newline ++ observation)%string in
  resp <- CreateChatCompletion (Client r) (openai.chat reactPrompt usrPrompt);;
  response <- openai.firstContent resp;;
  ret (decide response).
End react.

(** ** Package a25: the agent *)

Module a25.
Record Modules (W : Type) : Type := {
  Planner : plan.Planner W;
  React : react.Reactor W;
  Reflector : reflect.Reflector W
}.
Arguments Planner {W} _.
Arguments React {W} _.
Arguments Reflector {W} _.

Record AgentStatus : Type := {
  CurrentTask : string;
  CurrentLocation : string
}.

Record Agent (W : Type) : Type := {
  Name : string;
  Traits : string;
  Description : string;
  Memory : memory.MemoryStream W;
  Client : memory.OpenAIClient W;
  CurrentPlan : plan.Plan;
  Status : AgentStatus;
  Modules_ : Modules W
}.
Arguments Name {W} _.
Arguments Traits {W} _.
Arguments Description {W} _.
Arguments Memory {W} _.
Arguments Client {W} _.
Arguments CurrentPlan {W} _.
Arguments Status {W} _.
Arguments Modules_ {W} _.

Section WithWorld.
Context {W : Type} `{Clock W} `{UUIDs W} `{GoLibrary} `{GoTexts}.

(** The state a method of [*Agent] runs in. *)
Definition St : Type := W * Agent W.

Definition agent : M St (Agent W) := fun s => (s, Ok (snd s)).

Definition setMemory (ms : memory.MemoryStream W) (a : Agent W) : Agent W :=
  {| Name := Name a; Traits := Traits a; Description := Description a;
     Memory := ms; Client := Client a; CurrentPlan := CurrentPlan a;
     Status := Status a; Modules_ := Modules_ a |}.

Definition setPlan (p : plan.Plan) (a : Agent W) : Agent W :=
  {| Name := Name a; Traits := Traits a; Description := Description a;
     Memory := Memory a; Client := Client a; CurrentPlan := p;
     Status := Status a; Modules_ := Modules_ a |}.

Definition setCurrentTask (task : string) (a : Agent W) : Agent W :=
  {| Name := Name a; Traits := Traits a; Description := Description a;
     Memory := Memory a; Client := Client a; CurrentPlan := CurrentPlan a;
     Status := {| CurrentTask := task;
                  CurrentLocation := CurrentLocation (Status a) |};
     Modules_ := Modules_ a |}.

(** A method of [a.Memory], run on the agent. *)
Definition onMemory {A} (c : M memory.St A) : M St A :=
  fun s =>
    let '(w, a) := s in
    let '((w', ms'), r) := c (w, Memory a) in
    ((w', setMemory ms' a), r).

(** A method of [a.CurrentPlan] that asks the world, run on the agent. *)
Definition onPlan {A} (c : M (W * plan.Plan) A) : M St A :=
  fun s =>
    let '(w, a) := s in
    let '((w', p'), r) := c (w, CurrentPlan a) in
    ((w', setPlan p' a), r).

(** A call that asks the world and leaves the agent alone. *)
Definition outside {A} (c : M W A) : M St A :=
  zoom fst (fun w s => (w, snd s)) c.

(** [NewAgent] *)
Definition NewAgent (name traits description : string)
           (client : memory.OpenAIClient W) : Agent W :=
  let chat := memory.CreateChatCompletion client in
  {| Name := name;
     Traits := traits;
     Description := description;
     Memory := {| memory.Client := client; memory.Memories := [] |};
     Client := client;
     CurrentPlan := {| plan.actions := [] |};
     Status := {| CurrentTask := ""; CurrentLocation := "" |};
     Modules_ :=
       {| Planner := {| plan.Client := {| plan.CreateChatCompletion := chat |} |};
          React := {| react.Client := {| react.CreateChatCompletion := chat |} |};
          Reflector :=
            {| reflect.Client := {| reflect.CreateChatCompletion := chat |} |} |}
  |}.

(** [a.AddMemory(description, importance)]: neither the importance nor
    the error of the stream is looked at. *)
Definition AddMemory (description : string) (importance : float64)
  : M St unit :=
  ignoring (onMemory (memory.AddMemory description)).

(** [a.Reflect()] *)
Definition Reflect : M St unit :=
  a <- agent;;
  m <- orPanic (memory.GetRecentMemories 100 (Memory a));;
  onMemory (reflect.Reflect (Reflector (Modules_ a)) m).

(** [a.GenerateSummary()], which returns no error. *)
Definition GenerateSummary (a : Agent W) : string :=
  ("Name: " ++ Name a ++ newline ++ "Traits: " ++ Traits a ++ newline
     ++ "Description: " ++ Description a)%string.

(** [a.PlanDay(currentTime)] *)
Definition PlanDay (currentTime : Time) : M St unit :=
  a <- agent;;
  let summary := GenerateSummary a in
  newActions <- wrapping "current plan failed to plan: "
                  (outside (plan.PlanDay (Planner (Modules_ a))
                              currentTime summary));;
  modify (fun s : St =>
            (fst s, setPlan (plan.SetActions (CurrentPlan (snd s)) newActions)
                      (snd s)));;;
  ignoring (onMemory (memory.AddMemory "Generated plan for the day.")).

(** [a.UpdatePlan(reaction, currentTime)], which returns no error. *)
Definition UpdatePlan (reaction : string) (currentTime : Time) : M St unit :=
  onPlan (plan.AddAction
            {| plan.ID := "";
               plan.Description := reaction;
               plan.Location := "";
               plan.StartTime := currentTime;
               plan.Duration := 0 |}).

(** [a.PerceiveAndReact(observation, currentTime)] *)
Definition PerceiveAndReact (observation : string) (currentTime : Time)
  : M St unit :=
  ignoring (onMemory (memory.AddMemory observation));;;
  a <- agent;;
  let context :=
    ("Agent: " ++ Name a ++ newline ++ "Traits: " ++ Traits a ++ newline
       ++ "Description: " ++ Description a ++ newline
       ++ "Current Task: " ++ CurrentTask (Status a))%string in
  decision <- wrapping "failed to perceive and react: "
                (outside (react.ToObservation (React (Modules_ a))
                            observation context currentTime));;
  let '(shouldReact, reactReason) := decision in
  if negb shouldReact then
    ignoring (onMemory (memory.AddMemory
                (Name a ++ " decided not to react to: '" ++ observation
                   ++ "'")%string))
  else
    wrapping "failed to update plan: " (UpdatePlan reactReason currentTime);;;
    ignoring (onMemory (memory.AddMemory
                (Name a ++ " decided to react to: '" ++ observation
                   ++ "', because: " ++ reactReason)%string)).

(** [a.SelectTask()]: [NextAction] panics on an empty plan. *)
Definition SelectTask : M St unit :=
  a <- agent;;
  _ <- orPanic (plan.NextAction (CurrentPlan a));;
  next <- orPanic (plan.NextAction (CurrentPlan a));;
  modify (fun s : St => (fst s, setCurrentTask (plan.Description next) (snd s)));;;
  a <- agent;;
  ignoring (onMemory (memory.AddMemory
              ("Started Task: " ++ CurrentTask (Status a))%string)).
End WithWorld.
End a25.

(** * Test doubles

    A deterministic world to run the code in: a scripted OpenAI service, a
    clock that advances by a fixed pace at every reading, and stand-ins
    for the Go standard library. *)

Module sim.
(** ** The standard library *)

(** Insertion sort, stable: what [sort.Slice] does on short slices. *)
Fixpoint insert {A} (less : A -> A -> bool) (x : A) (l : list A) : list A :=
  match l with
  | [] => [x]
  | y :: l' => if less y x then y :: insert less x l' else x :: l
  end.

Definition insertionSort (A : Type) (less : A -> A -> bool) (l : list A)
  : list A :=
  fold_right (insert less) [] l.


Definition digit (c : ascii) : option Z :=
  let n := Z.of_N (N_of_ascii c) in
  if (48 <=? n) && (n <=? 57) then Some (n - 48) else None.

Fixpoint parseDigits (s : string) (acc : Z) : option Z :=
  match s with
  | EmptyString => Some acc
  | String c s' =>
      match digit c with
      | Some d => parseDigits s' (10 * acc + d)
      | None => None
      end
  end.

(** [strconv.ParseFloat(s, 32)] on a string of decimal digits; this
    stand-in reports any other string as a syntax error. *)
Definition ParseFloat (s : string) : error + float64 :=
  match s with
  | EmptyString => inl (Err "strconv.ParseFloat: invalid syntax")
  | _ =>
      match parseDigits s 0 with
      | Some n => inr (F64.of_f32 (F32.of_Z n))
      | None => inl (Err "strconv.ParseFloat: invalid syntax")
      end
  end.

(** [math.Exp] at the two arguments the scenarios reach: [Exp(0) = 1]
    and the value above; this stand-in answers NaN elsewhere. *)
Definition Exp (x : float64) : float64 :=
  match x with
  | S754_zero _ => F64.of_Z 1
  | _ =>
      if SFeqb x minusTwoHoursOver24 then expMinusTwoHoursOver24
      else S754_nan
  end.

Definition library (sort : forall A, (A -> A -> bool) -> list A -> list A)
  : GoLibrary :=
  {| math_Exp := Exp;
     strconv_ParseFloat := ParseFloat;
     strings_TrimFunc_IsSpace := fun s => s;
     strings_TrimRightFunc_IsSpace := fun s => s;
     sort_Slice := sort |}.

Definition go : GoLibrary := library insertionSort.

(** ** The world *)

Record World : Type := {
  instant : Time;
  pace : Z;
  embeddings : nat;
  completions : nat;
  prompts : list string
}.

(** A world starting at [t0] whose clock advances by [pace] a reading. *)
Definition start (t0 : Time) (pace : Z) : World :=
  {| instant := t0; pace := pace;
     embeddings := 0; completions := 0; prompts := [] |}.

#[global] Instance clock : Clock World :=
  fun w =>
    ({| instant := instant w + pace w; pace := pace w;
        embeddings := embeddings w; completions := completions w;
        prompts := prompts w |},
     instant w).

(** What the service answers: to the [n]-th embedding request for a
    text, and to the [n]-th completion request with the given system and
    user prompts. *)
Record Script : Type := {
  embed : nat -> string -> outcome (list float32);
  complete : nat -> string -> string -> outcome string
}.

Definition CreateEmbeddings (sc : Script) (req : openai.EmbeddingRequest)
  : M World openai.EmbeddingResponse :=
  fun w =>
    let w' := {| instant := instant w; pace := pace w;
                 embeddings := S (embeddings w);
                 completions := completions w; prompts := prompts w |} in
    match embed sc (embeddings w) (String.concat "" (openai.Input req)) with
    | Ok v => (w', Ok {| openai.Data := [ {| openai.Vector := v |} ] |})
    | Fail e => (w', Fail e)
    | Panic => (w', Panic)
    end.

Definition CreateChatCompletion (sc : Script)
           (req : openai.ChatCompletionRequest)
  : M World openai.ChatCompletionResponse :=
  fun w =>
    let contents := map openai.Content (openai.Messages req) in
    let sysPrompt := nth 0 contents EmptyString in
    let usrPrompt := nth 1 contents EmptyString in
    let w' := {| instant := instant w; pace := pace w;
                 embeddings := embeddings w;
                 completions := S (completions w);
                 prompts := prompts w ++ [usrPrompt] |} in
    match complete sc (completions w) sysPrompt usrPrompt with
    | Ok text =>
        (w', Ok {| openai.Choices :=
                     [ {| openai.Message :=
                            {| openai.Role := "assistant";
                               openai.Content := text |} |} ] |})
    | Fail e => (w', Fail e)
    | Panic => (w', Panic)
    end.

Definition client (sc : Script) : memory.OpenAIClient World :=
  {| memory.CreateChatCompletion := CreateChatCompletion sc;
     memory.CreateEmbeddings := CreateEmbeddings sc |}.

Definition reflector (sc : Script) : reflect.Reflector World :=
  {| reflect.Client :=
       {| reflect.CreateChatCompletion := CreateChatCompletion sc |} |}.

Definition emptyStream (sc : Script) : memory.MemoryStream World :=
  {| memory.Client := client sc; memory.Memories := [] |}.

Definition f32 (z : Z) : float32 := F32.of_Z z.

(** ** Scripts *)

Definition unavailable {A} : outcome A := Fail (Err "service unavailable").

(** The service answers every prompt by the kind of its system prompt:
    [questions] to the question prompt, [insights] to the insight
    prompt, [rating] to the importance prompt. *)
Definition answering (questions insights rating : nat -> outcome string)
           (n : nat) (sysPrompt usrPrompt : string) : outcome string :=
  if (sysPrompt =? reflect.questionsPrompt)%string then questions n
  else if (sysPrompt =? reflect.insightsPrompt)%string then insights n
  else rating n.

(** Every text is embedded as the same unit vector and rated 8. *)
Definition steady : Script :=
  {| embed := fun _ _ => Ok [f32 1; f32 0];
     complete := answering (fun _ => Ok "1. Q1"%string)
                   (fun _ => Ok "1. I1"%string) (fun _ => Ok "8"%string) |}.

(** The embedding service is down. *)
Definition noEmbeddings : Script :=
  {| embed := fun _ _ => unavailable; complete := complete steady |}.

(** The completion for the questions is empty: no question is parsed. *)
Definition noQuestions : Script :=
  {| embed := embed steady;
     complete := answering (fun _ => Ok ""%string)
                   (fun _ => Ok "1. I1"%string) (fun _ => Ok "8"%string) |}.

Definition threeQuestions : string :=
  ("1. Q1" ++ newline ++ "2. Q2" ++ newline ++ "3. Q3")%string.




(** Two questions, one insight each: "I1" for the first question (the
    second completion of the run), "I2" for the second. *)
Definition twoQuestions : Script :=
  {| embed := embed steady;
     complete := answering
                   (fun _ => Ok ("1. Q1" ++ newline ++ "2. Q2")%string)
                   (fun n => if (n =? 1)%nat then Ok "1. I1"%string
                             else Ok "1. I2"%string)
                   (fun _ => Ok "8"%string) |}.

(** The embedding service stops answering at its third request. *)
Definition thirdEmbeddingFails : Script :=
  {| embed := fun n _ => if (n =? 2)%nat then unavailable
                         else Ok [f32 1; f32 0];
     complete := complete steady |}.

(** The service embeds a text as one unit vector at its first request
    and as another from then on, but for the query. *)
Definition driftingEmbeddings : Script :=
  {| embed := fun n text =>
                if (n =? 0)%nat || (text =? "query")%string
                then Ok [f32 1; f32 0]
                else Ok [f32 0; f32 1];
     complete := complete steady |}.

(** A record created and last accessed at [t], of importance 8. *)
Definition record (description : string) (t : Time) : memory.MemoryObject :=
  {| memory.Description := description;
     memory.CreationTime := t;
     memory.LastAccessedTime := t;
     memory.Importance := F64.of_Z 8;
     memory.Embedding := [f32 1; f32 0] |}.

Definition streamOf (sc : Script) (records : list memory.MemoryObject)
  : memory.MemoryStream World :=
  {| memory.Client := client sc; memory.Memories := records |}.

(** A query whose embedding has cosine similarity 0.5 with the embedding
    of every memory: [(1,0,0,0)] against [(1,1,1,1)]. *)
Definition halfSimilar : Script :=
  {| embed := fun _ text =>
                if (text =? "query")%string
                then Ok [f32 1; f32 0; f32 0; f32 0]
                else Ok [f32 1; f32 1; f32 1; f32 1];
     complete := complete steady |}.
End sim.

(** * More test doubles *)

Module sim2.
Definition fiveInsights : string :=
  ("1. I1" ++ newline ++ "2. I2" ++ newline ++ "3. I3" ++ newline
     ++ "4. I4" ++ newline ++ "5. I5")%string.

(** A service that never fails: three questions, and the same five
    insights for every question. *)
Definition threeByFive : sim.Script :=
  {| sim.embed := sim.embed sim.steady;
     sim.complete := sim.answering (fun _ => Ok sim.threeQuestions)
                       (fun _ => Ok fiveInsights) (fun _ => Ok "8"%string) |}.

(** A record that stores another embedding than [sim.record] does. *)
Definition recordWith (embedding : list float32) (description : string)
           (t : Time) : memory.MemoryObject :=
  {| memory.Description := description;
     memory.CreationTime := t;
     memory.LastAccessedTime := t;
     memory.Importance := F64.of_Z 8;
     memory.Embedding := embedding |}.

(** A world that hands out the identifiers "id-0", "id-1", ... *)
#[global] Instance counter : UUIDs nat :=
  fun n => (S n, ("id-" ++ itoa n)%string).

Definition action (id description : string) (start : Time) : plan.Action :=
  {| plan.ID := id;
     plan.Description := description;
     plan.Location := "";
     plan.StartTime := start;
     plan.Duration := Hour |}.

(** A day in chronological order, two of its actions starting together. *)
Definition day : plan.Plan :=
  {| plan.actions := [action "a" "wake up" 10; action "b" "read" 20;
                      action "c" "write" 20; action "d" "lunch" 30] |}.
End sim2.

(** * Properties *)

(** ** The order of IEEE 754 values *)







(** [SFmul] does not depend on the order of its arguments. *)
Lemma SFmul_comm (prec emax : Z) (x y : spec_float) :
  SFmul prec emax x y = SFmul prec emax y x.
Proof.
  destruct x as [sx|sx| |sx mx ex], y as [sy|sy| |sy my ey]; cbn;
    rewrite ?(xorb_comm sx sy); try reflexivity.
  now rewrite (Pos.mul_comm mx my), (Z.add_comm ex ey).
Qed.

(** A finite value divided by itself is exactly one: the quotient of the
    mantissas is a power of two and nothing is rounded away. *)
Lemma SFdiv_self (s : bool) (m : positive) (e : Z) :
  F32.div (S754_finite s m e) (S754_finite s m e) = F32.one.
Proof.
  unfold F32.div, SFdiv, SFdiv_core_binary.
  rewrite !Z.sub_diag, xorb_nilpotent.
  change (Z.min (fexp F32.prec F32.emax 0) 0) with (-24).
  change (0 - -24) with 24.
  cbv zeta. cbv iota beta.
  assert (Hdiv : Z.div_eucl (Z.shiftl (Zpos m) 24) (Zpos m) = (16777216, 0)).
  { rewrite Z.shiftl_mul_pow2 by lia.
    change (2 ^ 24) with 16777216.
    pose proof (Z.div_eucl_eq (Zpos m * 16777216) (Zpos m)) as Heq.
    pose proof (Z.mod_pos_bound (Zpos m * 16777216) (Zpos m)) as Hb.
    unfold Z.modulo in Hb.
    destruct (Z.div_eucl (Zpos m * 16777216) (Zpos m)) as [q r].
    specialize (Heq ltac:(lia)). specialize (Hb ltac:(lia)).
    assert (q = 16777216) by nia. subst q.
    f_equal. lia. }
  rewrite Hdiv.
  assert (Hloc : new_location (Zpos m) 0 = loc_Exact).
  { unfold new_location, new_location_even, new_location_odd.
    now destruct (Z.even (Zpos m)). }
  rewrite Hloc. reflexivity.
Qed.

(** ** [cosineSimilarity] *)


Lemma cosineLoop_swap (a b : list float32) :
  List.length a = List.length b ->
  forall d na nb,
    cosineLoop b a d nb na = option_map swapNorms (cosineLoop a b d na nb).
Proof.
  revert b. induction a as [|x a IH]; intros [|y b] Hlen d na nb;
    try discriminate; cbn in *.
  - reflexivity.
  - unfold F32.mul at 1. rewrite (SFmul_comm _ _ y x). apply IH. congruence.
Qed.

Lemma cosineLoop_defined (a b : list float32) :
  List.length a = List.length b ->
  forall d na nb, exists r, cosineLoop a b d na nb = Some r.
Proof.
  revert b. induction a as [|x a IH]; intros [|y b] Hlen d na nb;
    try discriminate; cbn in *.
  - eauto.
  - apply IH. congruence.
Qed.


Lemma cosineLoop_normA (a b : list float32) :
  forall d na nb r,
    cosineLoop a b d na nb = Some r -> snd (fst r) = sumSquares a na.
Proof.
  revert b. induction a as [|x a IH]; intros [|y b] d na nb r Hr;
    cbn in *; try discriminate.
  - now inversion Hr.
  - now inversion Hr.
  - apply (IH _ _ _ _ _ Hr).
Qed.

Lemma cosineLoop_self (v : list float32) :
  forall n, cosineLoop v v n n n = Some (sumSquares v n, sumSquares v n, sumSquares v n).
Proof.
  induction v as [|x v IH]; intros n; cbn; [reflexivity | apply IH].
Qed.

Lemma sumSquares_zero (v : list float32) :
  Forall (fun x => is_zero x = true) v -> sumSquares v F32.zero = F32.zero.
Proof.
  induction 1 as [|x v Hx _ IH]; [reflexivity|].
  destruct x as [s| | |]; try discriminate.
  unfold sumSquares in *. rewrite <- IH at 2. cbn [fold_left].
  f_equal. now destruct s.
Qed.

Lemma cosineSimilarity_sym (a b : list float32) :
  List.length a = List.length b ->
  cosineSimilarity a b = cosineSimilarity b a.
Proof.
  intros Hlen. unfold cosineSimilarity.
  rewrite (cosineLoop_swap a b Hlen).
  destruct (cosineLoop a b F32.zero F32.zero F32.zero) as [[[d na] nb]|];
    cbn; [|reflexivity].
  rewrite orb_comm.
  destruct (F32.eqb nb F32.zero || F32.eqb na F32.zero); [reflexivity|].
  unfold F64.mul. now rewrite SFmul_comm.
Qed.

Lemma cosineSimilarity_zero_left (a b : list float32) :
  List.length a = List.length b ->
  Forall (fun x => is_zero x = true) a ->
  cosineSimilarity a b = Some F32.zero.
Proof.
  intros Hlen Hz. unfold cosineSimilarity.
  destruct (cosineLoop_defined a b Hlen F32.zero F32.zero F32.zero) as [r Hr].
  rewrite Hr. pose proof (cosineLoop_normA _ _ _ _ _ _ Hr) as Hn.
  destruct r as [[d na] nb]; cbn in Hn. subst na.
  now rewrite (sumSquares_zero a Hz).
Qed.

Lemma cosineSimilarity_self (v : list float32) :
  let n := sumSquares v F32.zero in
  cosineSimilarity v v =
    Some (if F32.eqb n F32.zero then F32.zero
          else F32.div n (F32.of_f64 (F64.mul (F64.sqrt (F64.of_f32 n))
                                              (F64.sqrt (F64.of_f32 n))))).
Proof.
  cbv zeta. unfold cosineSimilarity. rewrite cosineLoop_self.
  rewrite orb_diag. now destruct (F32.eqb (sumSquares v F32.zero) F32.zero).
Qed.

(** ** Running the memory stream *)

Ltac unfold_monad :=
  unfold memory.external, memory.stream, memory.setMemories, time_Since in *;
  unfold time_Now, openai.firstContent in *;
  unfold bind, ret, throw, panic, modify, wrapping, ignoring, zoom, orPanic
    in *.

Section MemoryRuns.
Import memory.
Context {W : Type} `{Clock W} `{GoLibrary}.

Lemma external_run {A} (c : M W A) (w : W) (ms : MemoryStream W) :
  external c (w, ms) = let (w', r) := c w in ((w', ms), r).
Proof. unfold_monad. cbn. now destruct (c w). Qed.

(** [AddMemory], call by call. *)
Lemma AddMemory_run (description : string) (w : W) (ms : MemoryStream W) :
  AddMemory description (w, ms) =
    match getEmbedding description (Client ms) w with
    | (w1, Ok embed) =>
        match rateImportance description (Client ms) w1 with
        | (w2, Ok importance) =>
            let (w3, created) := readClock w2 in
            let (w4, accessed) := readClock w3 in
            ((w4, {| Client := Client ms;
                     Memories := Memories ms ++
                       [ {| Description := description;
                            CreationTime := created;
                            LastAccessedTime := accessed;
                            Importance := importance;
                            Embedding := embed |} ] |}), Ok tt)
        | (w2, Fail e) =>
            ((w2, ms), Fail (Wrap "failed to rate importance: " e))
        | (w2, Panic) => ((w2, ms), Panic)
        end
    | (w1, Fail e) => ((w1, ms), Fail (Wrap "failed to get embedding: " e))
    | (w1, Panic) => ((w1, ms), Panic)
    end.
Proof.
  unfold AddMemory. unfold_monad. cbn.
  destruct (getEmbedding description (Client ms) w) as [w1 [embed|e|]];
    cbn; try reflexivity.
  destruct (rateImportance description (Client ms) w1) as [w2 [imp|e|]];
    cbn; try reflexivity.
  destruct (readClock w2) as [w3 created]; cbn.
  destruct (readClock w3) as [w4 accessed]; cbn.
  reflexivity.
Qed.

Lemma getEmbedding_event (client : OpenAIClient W) (text : string) (w : W) :
  event client w (fst (getEmbedding text client w)).
Proof.
  unfold getEmbedding. unfold_monad.
  pose proof (event_embedding client
                {| openai.Input := [text];
                   openai.EmbeddingModel := openai.SmallEmbedding3 |} w) as E.
  destruct (CreateEmbeddings client _ w) as [w1 [resp|e|]]; cbn in *; auto.
  destruct (openai.Data resp); cbn; auto.
Qed.

Lemma rateImportance_event (client : OpenAIClient W) (text : string) (w : W) :
  event client w (fst (rateImportance text client w)).
Proof.
  unfold rateImportance, parseImportanceRating. unfold_monad.
  pose proof (event_completion client
                (openai.chat importancePrompt text) w) as E.
  destruct (CreateChatCompletion client _ w) as [w1 [resp|e|]]; cbn in *; auto.
  destruct (openai.Choices resp); cbn; auto.
  destruct (strconv_ParseFloat _); cbn; auto.
Qed.

Lemma setNth_length {A} (i : nat) (x : A) (l : list A) :
  List.length (setNth i x l) = List.length l.
Proof.
  revert i; induction l as [|y l IH]; intros [|i]; cbn; auto.
Qed.

Lemma setNth_skipn {A} (i : nat) (x y : A) (l rest : list A) :
  skipn i l = y :: rest ->
  setNth i x l = firstn i l ++ x :: rest
  /\ skipn (S i) (setNth i x l) = rest.
Proof.
  revert i; induction l as [|z l IH]; intros [|i] Hs; cbn in *;
    try discriminate.
  - inversion Hs; subst. now split.
  - destruct (IH i Hs) as [E1 E2]. rewrite E1. split; [reflexivity|].
    now rewrite <- E1.
Qed.

Lemma skipn_nth_error {A} (i : nat) (y : A) (l rest : list A) :
  skipn i l = y :: rest -> nth_error l i = Some y.
Proof.
  revert i; induction l as [|z l IH]; intros [|i] Hs; cbn in *;
    try discriminate; [now inversion Hs | auto].
Qed.

Lemma touch_run (i : nat) (w : W) (ms : MemoryStream W) :
  touch i (w, ms) =
    let (w', now) := readClock w in
    match nth_error (Memories ms) i with
    | None => ((w', ms), Panic)
    | Some m =>
        ((w', {| Client := Client ms;
                 Memories := setNth i (accessedAt now m) (Memories ms) |}),
         Ok tt)
    end.
Proof.
  unfold touch. unfold_monad. cbn.
  destruct (readClock w) as [w' now]; cbn.
  now destruct (nth_error (Memories ms) i).
Qed.

(** One turn of the loop of [RetrieveMemories], call by call. *)
Lemma scan_step (q : list float32) (i : nat) (memory : MemoryObject)
      (rest : list MemoryObject) (acc : list RetrievedMemory)
      (w : W) (ms : MemoryStream W) :
  scan q i (memory :: rest) acc (w, ms) =
    match getEmbedding (Description memory) (Client ms) w with
    | (w1, Ok e) =>
        match cosineSimilarity q e with
        | None => ((w1, ms), Panic)
        | Some relevance =>
            let (w2, now) := readClock w1 in
            let (w3, accessed) := readClock w2 in
            match nth_error (Memories ms) i with
            | None => ((w3, ms), Panic)
            | Some mi =>
                scan q (S i) rest
                  (acc ++ [ {| Memory := memory;
                               Score := totalScore relevance
                                          (Sub now (LastAccessedTime memory))
                                          (Importance memory) |} ])
                  (w3, {| Client := Client ms;
                          Memories := setNth i (accessedAt accessed mi)
                                        (Memories ms) |})
            end
        end
    | (w1, Fail e) => ((w1, ms), Fail e)
    | (w1, Panic) => ((w1, ms), Panic)
    end.
Proof.
  cbn [scan]. unfold bind at 1. unfold stream at 1. cbn.
  unfold bind at 1. rewrite external_run.
  destruct (getEmbedding (Description memory) (Client ms) w)
    as [w1 [e|err|]]; try reflexivity.
  unfold bind at 1. unfold orPanic.
  destruct (cosineSimilarity q e) as [relevance|]; [|reflexivity].
  unfold ret at 1. unfold bind at 1. rewrite external_run.
  unfold time_Since, time_Now, bind at 1.
  destruct (readClock w1) as [w2 now]; cbn.
  unfold bind at 1. rewrite touch_run.
  destruct (readClock w2) as [w3 accessed]; cbn.
  now destruct (nth_error (Memories ms) i).
Qed.

Lemma sameButAccess_refl (m : MemoryObject) : sameButAccess m m.
Proof. now repeat split. Qed.

Lemma sameButAccess_accessedAt (t : Time) (m : MemoryObject) :
  sameButAccess m (accessedAt t m).
Proof. now repeat split. Qed.

Lemma sameButAccess_trans (m1 m2 m3 : MemoryObject) :
  sameButAccess m1 m2 -> sameButAccess m2 m3 -> sameButAccess m1 m3.
Proof.
  unfold sameButAccess. intros (A1 & A2 & A3 & A4) (B1 & B2 & B3 & B4).
  repeat split; congruence.
Qed.

Lemma Forall2_sameButAccess_refl (l : list MemoryObject) :
  Forall2 sameButAccess l l.
Proof. induction l; constructor; auto using sameButAccess_refl. Qed.

Lemma Forall2_sameButAccess_trans (l1 l2 l3 : list MemoryObject) :
  Forall2 sameButAccess l1 l2 -> Forall2 sameButAccess l2 l3 ->
  Forall2 sameButAccess l1 l3.
Proof.
  intros H12; revert l3; induction H12; intros l3 H23; inversion H23; subst;
    constructor; eauto using sameButAccess_trans.
Qed.

Lemma Forall2_sameButAccess_setNth (i : nat) (t : Time) (m : MemoryObject)
      (l : list MemoryObject) :
  nth_error l i = Some m ->
  Forall2 sameButAccess l (setNth i (accessedAt t m) l).
Proof.
  revert i; induction l as [|x l IH]; intros [|i] Hn; cbn in *;
    try discriminate.
  - inversion Hn; subst. constructor;
      auto using sameButAccess_accessedAt, Forall2_sameButAccess_refl.
  - constructor; auto using sameButAccess_refl.
Qed.

(** Whatever its outcome, the loop keeps the client and changes nothing
    of a record but its access time. *)
Lemma scan_frame (q : list float32) (rest : list MemoryObject) :
  forall i acc w ms w' ms' r,
    scan q i rest acc (w, ms) = ((w', ms'), r) ->
    Client ms' = Client ms
    /\ Forall2 sameButAccess (Memories ms) (Memories ms').
Proof.
  induction rest as [|memory rest IH]; intros i acc w ms w' ms' r Hrun.
  - cbn in Hrun. inversion Hrun; subst.
    auto using Forall2_sameButAccess_refl.
  - rewrite scan_step in Hrun.
    destruct (getEmbedding (Description memory) (Client ms) w)
      as [w1 [e|err|]];
      try (inversion Hrun; subst; auto using Forall2_sameButAccess_refl).
    destruct (cosineSimilarity q e) as [relevance|];
      [|inversion Hrun; subst; auto using Forall2_sameButAccess_refl].
    destruct (readClock w1) as [w2 now].
    destruct (readClock w2) as [w3 accessed].
    destruct (nth_error (Memories ms) i) as [mi|] eqn:Hn;
      [|inversion Hrun; subst; auto using Forall2_sameButAccess_refl].
    apply IH in Hrun. cbn in Hrun. destruct Hrun as [Hc Hf].
    split; [exact Hc|].
    eapply Forall2_sameButAccess_trans; [|exact Hf].
    now apply Forall2_sameButAccess_setNth.
Qed.

(** A pass of the loop that succeeds is a complete pass: [scanned]. *)
Lemma scan_ok (q : list float32) (rest : list MemoryObject) :
  forall i acc w ms w' ms' out,
    skipn i (Memories ms) = rest ->
    scan q i rest acc (w, ms) = ((w', ms'), Ok out) ->
    exists touched retrieved,
      scanned (Client ms) q w rest w' touched retrieved
      /\ out = acc ++ retrieved
      /\ Memories ms' = firstn i (Memories ms) ++ touched
      /\ Client ms' = Client ms.
Proof.
  induction rest as [|memory rest IH]; intros i acc w ms w' ms' out Hs Hrun.
  - cbn in Hrun. inversion Hrun; subst. exists [], []. repeat split.
    + constructor.
    + now rewrite app_nil_r.
    + rewrite app_nil_r. rewrite <- (firstn_skipn i (Memories ms')) at 1.
      now rewrite Hs, app_nil_r.
  - rewrite scan_step in Hrun.
    destruct (getEmbedding (Description memory) (Client ms) w)
      as [w1 [e|err|]] eqn:He; try discriminate.
    destruct (cosineSimilarity q e) as [relevance|] eqn:Hc;
      [|discriminate].
    destruct (readClock w1) as [w2 now] eqn:H1.
    destruct (readClock w2) as [w3 accessed] eqn:H2.
    rewrite (skipn_nth_error _ _ _ _ Hs) in Hrun.
    destruct (setNth_skipn i (accessedAt accessed memory) memory
                (Memories ms) rest Hs) as [Eset Eskip].
    apply IH in Hrun; [|exact Eskip].
    destruct Hrun as (touched & retrieved & Hsc & Hout & Hmem & Hcl).
    cbn [Memories Client] in Hsc, Hmem, Hcl.
    eexists (accessedAt accessed memory :: touched), (_ :: retrieved).
    repeat split.
    + econstructor; eauto.
    + now rewrite Hout, <- app_assoc.
    + rewrite Hmem, Eset.
      assert (Hlen : (i < List.length (Memories ms))%nat).
      { apply nth_error_Some. now rewrite (skipn_nth_error _ _ _ _ Hs). }
      rewrite firstn_app, firstn_firstn.
      rewrite length_firstn.
      replace (Nat.min (S i) i) with i by lia.
      replace (S i - Nat.min i (List.length (Memories ms)))%nat with 1%nat by lia.
      cbn. now rewrite <- app_assoc.
    + exact Hcl.
Qed.

(** [RetrieveMemories], call by call. *)
Lemma RetrieveMemories_run (query : string) (w : W) (ms : MemoryStream W) :
  RetrieveMemories query (w, ms) =
    match getEmbedding query (Client ms) w with
    | (w0, Ok queryEmbedding) =>
        match scan queryEmbedding 0 (Memories ms) [] (w0, ms) with
        | (s', Ok retrieved) =>
            (s', Ok (sort_Slice RetrievedMemory byScoreDesc retrieved))
        | (s', Fail e) => (s', Fail e)
        | (s', Panic) => (s', Panic)
        end
    | (w0, Fail e) => ((w0, ms), Fail e)
    | (w0, Panic) => ((w0, ms), Panic)
    end.
Proof.
  unfold RetrieveMemories. unfold bind at 1. unfold stream at 1. cbn.
  unfold bind at 1. rewrite external_run.
  now destruct (getEmbedding query (Client ms) w) as [w0 [qe|e|]].
Qed.

Lemma RetrieveMemories_ok (query : string) (w w' : W)
      (ms ms' : MemoryStream W) (out : list RetrievedMemory) :
  RetrieveMemories query (w, ms) = ((w', ms'), Ok out) ->
  exists w0 queryEmbedding touched retrieved,
    getEmbedding query (Client ms) w = (w0, Ok queryEmbedding)
    /\ scanned (Client ms) queryEmbedding w0 (Memories ms) w'
         touched retrieved
    /\ out = sort_Slice RetrievedMemory byScoreDesc retrieved
    /\ Memories ms' = touched
    /\ Client ms' = Client ms.
Proof.
  rewrite RetrieveMemories_run.
  destruct (getEmbedding query (Client ms) w) as [w0 [qe|e|]] eqn:Hq;
    try discriminate.
  destruct (scan qe 0 (Memories ms) [] (w0, ms)) as [[w1 ms1] [out'|e|]]
    eqn:Hscan; try discriminate.
  intros Heq; inversion Heq; subst.
  apply scan_ok in Hscan; [|reflexivity].
  destruct Hscan as (touched & retrieved & Hsc & Hout & Hmem & Hcl).
  exists w0, qe, touched, retrieved. cbn in Hout, Hmem. subst out'.
  repeat split; auto.
Qed.

Lemma RetrieveMemories_frame (query : string) (w w' : W)
      (ms ms' : MemoryStream W) (r : outcome (list RetrievedMemory)) :
  RetrieveMemories query (w, ms) = ((w', ms'), r) ->
  Client ms' = Client ms
  /\ Forall2 sameButAccess (Memories ms) (Memories ms').
Proof.
  rewrite RetrieveMemories_run.
  destruct (getEmbedding query (Client ms) w) as [w0 [qe|e|]] eqn:Hq.
  - destruct (scan qe 0 (Memories ms) [] (w0, ms)) as [[w1 ms1] [out'|e|]]
      eqn:Hscan; intros Heq; inversion Heq; subst;
      eapply scan_frame; eauto.
  - intros Heq; inversion Heq; subst; auto using Forall2_sameButAccess_refl.
  - intros Heq; inversion Heq; subst; auto using Forall2_sameButAccess_refl.
Qed.

Lemma during_refl (client : OpenAIClient W) (w : W) : during client w w.
Proof. apply rt_refl. Qed.

Lemma during_event (client : OpenAIClient W) (w w1 w2 : W) :
  during client w w1 -> event client w1 w2 -> during client w w2.
Proof. intros D E. eapply rt_trans; [exact D | now apply rt_step]. Qed.

Lemma during_clock (client : OpenAIClient W) (w w1 w2 : W) (t : Time) :
  during client w w1 -> readClock w1 = (w2, t) -> during client w w2.
Proof.
  intros D E. eapply during_event; [exact D|].
  replace w2 with (fst (readClock w1)) by now rewrite E.
  constructor.
Qed.

Lemma during_getEmbedding (client : OpenAIClient W) (text : string)
      (w w1 w2 : W) (r : outcome (list float32)) :
  during client w w1 -> getEmbedding text client w1 = (w2, r) ->
  during client w w2.
Proof.
  intros D E. eapply during_event; [exact D|].
  replace w2 with (fst (getEmbedding text client w1)) by now rewrite E.
  apply getEmbedding_event.
Qed.



Lemma scanned_during (client : OpenAIClient W) (q : list float32)
      (w0 w w' : W) rest touched retrieved :
  scanned client q w rest w' touched retrieved ->
  during client w0 w ->
  during client w0 w'
  /\ Forall2 (scoredDuring client q w0) rest retrieved
  /\ Forall2 (touchedDuring client w0) rest touched.
Proof.
  induction 1 as [w|w memory rest w1 e relevance w2 now w3 accessed w'
                    touched retrieved He Hc H1 H2 Hsc IH]; intros D.
  - repeat split; auto.
  - assert (D1 : during client w0 w1) by (eapply during_getEmbedding; eauto).
    assert (D2 : during client w0 w2) by (eapply during_clock; eauto).
    assert (D3 : during client w0 w3) by (eapply during_clock; eauto).
    destruct (IH D3) as (Dend & Hscored & Htouched).
    repeat split; auto.
    + constructor; [|exact Hscored]. split; [reflexivity|].
      exists w, w1, e, relevance. cbn. rewrite H1. cbn. auto.
    + constructor; [|exact Htouched].
      exists w2. rewrite H2. cbn. auto.
Qed.
End MemoryRuns.

(** ** Sorting *)

Section InsertionSort.
Context {A : Type} (less : A -> A -> bool).

Lemma insert_perm (x : A) (l : list A) :
  Permutation (x :: l) (sim.insert less x l).
Proof.
  induction l as [|y l IH]; cbn; [reflexivity|].
  destruct (less y x); [|reflexivity].
  rewrite perm_swap. now constructor.
Qed.

Lemma insertionSort_perm (l : list A) :
  Permutation l (sim.insertionSort A less l).
Proof.
  induction l as [|x l IH]; cbn; [constructor|].
  rewrite <- insert_perm. now constructor.
Qed.

Lemma insert_hd (x z : A) (l : list A) :
  less x z = false ->
  HdRel (fun a b => less b a = false) z l ->
  HdRel (fun a b => less b a = false) z (sim.insert less x l).
Proof.
  intros Hx Hl. destruct l as [|y l]; cbn.
  - now constructor.
  - inversion Hl; subst. destruct (less y x); now constructor.
Qed.

Lemma insert_sorted (x : A) (l : list A) :
  (forall y, In y l -> less y x = true -> less x y = false) ->
  Sorted (fun a b => less b a = false) l ->
  Sorted (fun a b => less b a = false) (sim.insert less x l).
Proof.
  intros Hasym Hs. induction Hs as [|y l Hs IH Hhd]; cbn.
  - repeat constructor.
  - destruct (less y x) eqn:Hyx.
    + constructor.
      * apply IH. intros z Hz. apply Hasym. now right.
      * apply insert_hd; [|exact Hhd]. apply Hasym; [now left | exact Hyx].
    + constructor; [now constructor | now constructor].
Qed.

Lemma insertionSort_sorted (l : list A) :
  strictWeakOrder less l ->
  Sorted (fun a b => less b a = false) (sim.insertionSort A less l).
Proof.
  intros (Hirr & Htr & _).
  assert (Hasym : forall x y, In x l -> In y l ->
                              less y x = true -> less x y = false).
  { intros x y Hx Hy Hyx. destruct (less x y) eqn:Hxy; [|reflexivity].
    rewrite <- (Hirr x Hx). symmetry. now apply (Htr x y x). }
  clear Hirr Htr.
  induction l as [|x l IH]; cbn; [constructor|].
  apply insert_sorted.
  - intros y Hy. apply Hasym; [now left | right].
    eapply Permutation_in; [symmetry; apply insertionSort_perm | exact Hy].
  - apply IH. intros a b Ha Hb. apply Hasym; now right.
Qed.
End InsertionSort.


Lemma insertionSort_contract : @sortSliceContract sim.go.
Proof.
  intros A less l. split.
  - apply insertionSort_perm.
  - apply insertionSort_sorted.
Qed.




(** ** The parsers *)

Section Parsers.
Import reflect.
Context `{GoLibrary}.

Lemma parseQuestionsLoop_flat_map (lines acc : list string) :
  parseQuestionsLoop lines acc = acc ++ flat_map questionOf lines.
Proof.
  revert acc; induction lines as [|raw lines IH]; intros acc; cbn.
  - now rewrite app_nil_r.
  - unfold questionOf at 1.
    destruct (TrimSpace raw =? "")%string; rewrite IH; [reflexivity|].
    now rewrite <- app_assoc.
Qed.

Lemma parseInsightsLoop_flat_map (lines acc : list string) :
  parseInsightsLoop lines acc = acc ++ flat_map insightOf lines.
Proof.
  revert acc; induction lines as [|raw lines IH]; intros acc; cbn.
  - now rewrite app_nil_r.
  - unfold insightOf at 1.
    destruct (TrimSpace raw =? "")%string; rewrite IH; [reflexivity|].
    now rewrite <- app_assoc.
Qed.




End Parsers.

(** ** Running a reflection *)

Section ReflectRuns.
Import memory.
Context {W : Type} `{Clock W} `{GoLibrary}.

Lemma Reflect_run (r : reflect.Reflector W) (memories : list MemoryObject)
      (w : W) (ms : MemoryStream W) :
  reflect.Reflect r memories (w, ms) =
    match reflect.generateReflectionQuestions (map Description memories)
            (reflect.Client r) w with
    | (w0, Ok questions) => reflect.reflectOnAll r questions (w0, ms)
    | (w0, Fail e) => ((w0, ms), Fail e)
    | (w0, Panic) => ((w0, ms), Panic)
    end.
Proof.
  unfold reflect.Reflect. unfold bind at 1. rewrite external_run.
  now destruct (reflect.generateReflectionQuestions _ _ w) as [w0 [qs|e|]].
Qed.

Lemma reflectOn_run (r : reflect.Reflector W) (question : string)
      (s : St) :
  reflect.reflectOn r question s =
    match RetrieveMemories question s with
    | (s1, Ok retrieved) =>
        match reflect.generateInsights question retrieved
                (reflect.Client r) (fst s1) with
        | (w2, Ok insights) => reflect.addInsights insights (w2, snd s1)
        | (w2, Fail e) => ((w2, snd s1), Fail e)
        | (w2, Panic) => ((w2, snd s1), Panic)
        end
    | (s1, Fail e) => (s1, Fail e)
    | (s1, Panic) => (s1, Panic)
    end.
Proof.
  unfold reflect.reflectOn. unfold bind at 1.
  destruct (RetrieveMemories question s) as [[w1 ms1] [retrieved|e|]];
    try reflexivity.
  unfold bind at 1. rewrite external_run. cbn.
  now destruct (reflect.generateInsights question retrieved _ w1)
    as [w2 [insights|e|]].
Qed.

Lemma reflectOnAll_app (r : reflect.Reflector W) (qs1 qs2 : list string)
      (s : St) :
  reflect.reflectOnAll r (qs1 ++ qs2) s =
    match reflect.reflectOnAll r qs1 s with
    | (s1, Ok _) => reflect.reflectOnAll r qs2 s1
    | (s1, Fail e) => (s1, Fail e)
    | (s1, Panic) => (s1, Panic)
    end.
Proof.
  revert s; induction qs1 as [|q qs1 IH]; intros s; cbn; [reflexivity|].
  unfold bind.
  destruct (reflect.reflectOn r q s) as [s1 [[]|e|]]; try reflexivity.
  apply IH.
Qed.


(** [AddMemory] and the loop over the insights only append. *)
Lemma AddMemory_appends (description : string) (w w' : W)
      (ms ms' : MemoryStream W) (r : outcome unit) :
  AddMemory description (w, ms) = ((w', ms'), r) ->
  Client ms' = Client ms
  /\ exists added, Memories ms' = Memories ms ++ added.
Proof.
  rewrite AddMemory_run.
  destruct (getEmbedding description (Client ms) w) as [w1 [embed|e|]];
    try (intros Heq; inversion Heq; subst; split; [reflexivity|];
         exists []; now rewrite app_nil_r).
  destruct (rateImportance description (Client ms) w1) as [w2 [imp|e|]];
    try (intros Heq; inversion Heq; subst; split; [reflexivity|];
         exists []; now rewrite app_nil_r).
  destruct (readClock w2) as [w3 created].
  destruct (readClock w3) as [w4 accessed].
  intros Heq; inversion Heq; subst. cbn. eauto.
Qed.

Lemma addInsights_appends (insights : list string) :
  forall w w' (ms ms' : MemoryStream W) (r : outcome unit),
    reflect.addInsights insights (w, ms) = ((w', ms'), r) ->
    Client ms' = Client ms
    /\ exists added, Memories ms' = Memories ms ++ added.
Proof.
  induction insights as [|i insights IH]; intros w w' ms ms' r; cbn.
  - intros Heq; inversion Heq; subst. split; [reflexivity|].
    exists []; now rewrite app_nil_r.
  - unfold bind, ignoring.
    destruct (AddMemory i (w, ms)) as [[w1 ms1] r1] eqn:Ha.
    apply AddMemory_appends in Ha. destruct Ha as [Hc [a1 Ha1]].
    destruct r1 as [[]|e1|].
    + intros Hrest. apply IH in Hrest. destruct Hrest as [Hc2 [a2 Ha2]].
      split; [congruence|]. exists (a1 ++ a2).
      now rewrite Ha2, Ha1, app_assoc.
    + intros Hrest. apply IH in Hrest. destruct Hrest as [Hc2 [a2 Ha2]].
      split; [congruence|]. exists (a1 ++ a2).
      now rewrite Ha2, Ha1, app_assoc.
    + intros Heq; inversion Heq; subst. eauto.
Qed.

Lemma grows_refl (ms : MemoryStream W) : grows ms ms.
Proof.
  split; [reflexivity|]. exists (Memories ms), [].
  rewrite app_nil_r. auto using Forall2_sameButAccess_refl.
Qed.

Lemma grows_trans (ms1 ms2 ms3 : MemoryStream W) :
  grows ms1 ms2 -> grows ms2 ms3 -> grows ms1 ms3.
Proof.
  intros (C12 & k1 & a1 & E1 & F1) (C23 & k2 & a2 & E2 & F2).
  split; [congruence|].
  rewrite E1 in F2. apply Forall2_app_inv_l in F2.
  destruct F2 as (k2a & k2b & Fa & Fb & Ek).
  exists k2a, (k2b ++ a2). split.
  - now rewrite E2, Ek, app_assoc.
  - eapply Forall2_sameButAccess_trans; eauto.
Qed.

Lemma RetrieveMemories_grows (query : string) (w w' : W)
      (ms ms' : MemoryStream W) (r : outcome (list RetrievedMemory)) :
  RetrieveMemories query (w, ms) = ((w', ms'), r) -> grows ms ms'.
Proof.
  intros Hrun. apply RetrieveMemories_frame in Hrun. destruct Hrun as [Hc Hf].
  split; [exact Hc|]. exists (Memories ms'), []. now rewrite app_nil_r.
Qed.

Lemma addInsights_grows (insights : list string) (w w' : W)
      (ms ms' : MemoryStream W) (r : outcome unit) :
  reflect.addInsights insights (w, ms) = ((w', ms'), r) -> grows ms ms'.
Proof.
  intros Hrun. apply addInsights_appends in Hrun.
  destruct Hrun as [Hc [added Ha]].
  split; [exact Hc|]. exists (Memories ms), added.
  auto using Forall2_sameButAccess_refl.
Qed.

Lemma reflectOn_grows (r : reflect.Reflector W) (question : string)
      (w w' : W) (ms ms' : MemoryStream W) (o : outcome unit) :
  reflect.reflectOn r question (w, ms) = ((w', ms'), o) -> grows ms ms'.
Proof.
  rewrite reflectOn_run.
  destruct (RetrieveMemories question (w, ms)) as [[w1 ms1] [retrieved|e|]]
    eqn:Hret; apply RetrieveMemories_grows in Hret;
    try (intros Heq; inversion Heq; subst; exact Hret).
  cbn [fst snd].
  destruct (reflect.generateInsights question retrieved (reflect.Client r) w1)
    as [w2 [insights|e|]];
    try (intros Heq; inversion Heq; subst; exact Hret).
  intros Hadd. apply addInsights_grows in Hadd.
  eapply grows_trans; eauto.
Qed.

Lemma reflectOnAll_grows (r : reflect.Reflector W) (questions : list string) :
  forall (w w' : W) (ms ms' : MemoryStream W) (o : outcome unit),
    reflect.reflectOnAll r questions (w, ms) = ((w', ms'), o) -> grows ms ms'.
Proof.
  induction questions as [|q questions IH]; intros w w' ms ms' o; cbn.
  - intros Heq; inversion Heq; subst. apply grows_refl.
  - unfold bind.
    destruct (reflect.reflectOn r q (w, ms)) as [[w1 ms1] [[]|e|]] eqn:Hq;
      apply reflectOn_grows in Hq;
      try (intros Heq; inversion Heq; subst; exact Hq).
    intros Hrest. apply IH in Hrest. eapply grows_trans; eauto.
Qed.

Lemma scanned_memories (client : OpenAIClient W) (q : list float32)
      (w w' : W) rest touched retrieved :
  scanned client q w rest w' touched retrieved ->
  map Memory retrieved = rest.
Proof. induction 1; cbn; congruence. Qed.
End ReflectRuns.

(** ** Scores *)

Lemma Sorted_weaken {A} (P Q : A -> A -> Prop) (ok : A -> Prop) (l : list A) :
  (forall x y, ok x -> ok y -> P x y -> Q x y) ->
  Forall ok l -> Sorted P l -> Sorted Q l.
Proof.
  intros Himp Hok Hs. induction Hs as [|x l Hs IH Hhd]; [constructor|].
  inversion Hok as [|? ? Hx Hl]; subst. constructor; [auto|].
  destruct Hhd as [|y l Hxy]; constructor.
  inversion Hl; subst. auto.
Qed.


(** The scenario of the specification: relevance 0.5, last access two
    hours ago, importance 8. *)
Lemma totalScore_scenario `{GoLibrary} :
  expAccurateAtTwoHours ->
  near2220 (memory.totalScore (F32.of_pow2 1 (-1)) (2 * Hour) (F64.of_Z 8)).
Proof.
  unfold memory.totalScore.
  change (F64.div (F64.neg (Hours (2 * Hour))) (F64.of_Z 24))
    with minusTwoHoursOver24.
  intros [E|[E|E]]; rewrite E; vm_compute; split; reflexivity.
Qed.

(** * The claims of the specification *)

Section Claims.
Import memory.
Context {W : Type} `{Clock W} `{GoLibrary}.

(** C5. Whenever [AddMemory] does not succeed (the embedding call
    errors, the importance-rating call errors, the rating does not parse,
    or a response is empty), the stream is exactly as it was: nothing is
    appended. *)
Theorem AddMemory_atomic (description : string) (w w' : W)
        (ms ms' : MemoryStream W) (r : outcome unit) :
  AddMemory description (w, ms) = ((w', ms'), r) ->
  succeeded r = false ->
  ms' = ms.
Proof.
  rewrite AddMemory_run.
  destruct (getEmbedding description (Client ms) w) as [w1 [embed|e|]];
    try (intros Heq _; now inversion Heq).
  destruct (rateImportance description (Client ms) w1) as [w2 [imp|e|]];
    try (intros Heq _; now inversion Heq).
  destruct (readClock w2) as [w3 created].
  destruct (readClock w3) as [w4 accessed].
  intros Heq Hr. inversion Heq; subst. discriminate.
Qed.

(** C7, as the code has it. A successful [AddMemory] appends one record;
    its [CreationTime] and its [LastAccessedTime] are two successive
    readings of the clock, the creation time first. They are equal only
    when the clock gives the same instant at both readings. *)
Theorem AddMemory_timestamps (description : string) (w w' : W)
        (ms ms' : MemoryStream W) :
  AddMemory description (w, ms) = ((w', ms'), Ok tt) ->
  exists (m : MemoryObject) (w2 : W),
    Memories ms' = Memories ms ++ [m]
    /\ Description m = description
    /\ during (Client ms) w w2
    /\ CreationTime m = snd (readClock w2)
    /\ LastAccessedTime m = snd (readClock (fst (readClock w2))).
Proof.
  rewrite AddMemory_run.
  destruct (getEmbedding description (Client ms) w) as [w1 [embed|e|]] eqn:He;
    try discriminate.
  destruct (rateImportance description (Client ms) w1) as [w2 [imp|e|]] eqn:Hr;
    try discriminate.
  destruct (readClock w2) as [w3 created] eqn:H2.
  destruct (readClock w3) as [w4 accessed] eqn:H3.
  intros Heq; inversion Heq; subst.
  eexists _, w2. cbn. rewrite H2. cbn. rewrite H3. cbn.
  repeat split.
  eapply during_event.
  - eapply during_getEmbedding; [apply during_refl | exact He].
  - replace w2 with (fst (rateImportance description (Client ms) w1))
      by now rewrite Hr.
    apply rateImportance_event.
Qed.


(** C4, as the code has it. The retrieval for a question runs on the
    stream as it is when the question is reached: what the pass goes on
    with are the records the stream holds then, the ones it held at the
    start followed by every insight appended for the earlier questions. *)
Theorem Reflect_retrieves_from_live_stream (r : reflect.Reflector W)
        (done rest : list string) (question : string)
        (w0 : W) (ms : MemoryStream W) (s1 s2 : St)
        (retrieved : list RetrievedMemory) :
  sortSliceContract ->
  reflect.reflectOnAll r done (w0, ms) = (s1, Ok tt) ->
  RetrieveMemories question s1 = (s2, Ok retrieved) ->
  reflect.reflectOnAll r (done ++ question :: rest) (w0, ms)
    = reflect.afterRetrieval r question retrieved rest s2
  /\ Permutation (map Memory retrieved) (Memories (snd s1))
  /\ exists kept added,
      Memories (snd s1) = kept ++ added
      /\ Forall2 sameButAccess (Memories ms) kept.
Proof.
  intros Hsort Hdone Hret. split; [|split].
  - rewrite reflectOnAll_app, Hdone. cbn [reflect.reflectOnAll].
    unfold reflect.reflectOn, reflect.afterRetrieval, bind. rewrite Hret.
    now destruct (external _ s2) as [s3 [insights|e|]].
  - destruct s1 as [w1 ms1], s2 as [w2 ms2].
    apply RetrieveMemories_ok in Hret.
    destruct Hret as (wq & qe & touched & scored & _ & Hsc & Hout & _ & _).
    apply scanned_memories in Hsc. cbn. rewrite <- Hsc, Hout.
    apply Permutation_map. symmetry. apply Hsort.
  - destruct s1 as [w1 ms1]. apply reflectOnAll_grows in Hdone.
    destruct Hdone as (_ & kept & added & E & F). cbn. eauto.
Qed.

(** C6, as the code has it. When the completion for the questions
    succeeds and no question is parsed from its text, [Reflect] succeeds:
    it retrieves nothing, appends nothing and returns no error. *)
Theorem Reflect_without_questions (r : reflect.Reflector W)
        (memories : list MemoryObject) (w w0 : W) (ms : MemoryStream W)
        (resp : openai.ChatCompletionResponse)
        (choice : openai.ChatCompletionChoice)
        (others : list openai.ChatCompletionChoice) :
  reflect.CreateChatCompletion (reflect.Client r)
    (openai.chat reflect.questionsPrompt
       (Join (map Description memories) newline)) w = (w0, Ok resp) ->
  openai.Choices resp = choice :: others ->
  reflect.parseQuestions (openai.Content (openai.Message choice)) = [] ->
  reflect.Reflect r memories (w, ms) = ((w0, ms), Ok tt).
Proof.
  intros Hcall Hchoices Hparse. rewrite Reflect_run.
  unfold reflect.generateReflectionQuestions. unfold_monad.
  rewrite Hcall, Hchoices. cbn. now rewrite Hparse.
Qed.



(** C1, as the code has it. When [RetrieveMemories] succeeds, what it
    returns is a rearrangement of one scored copy of every record, in
    which the score of a record is
    [cosineSimilarity(queryEmbedding, e) + float32(exp(-hours/24))
     + float32(importance/10)],
    where [e] is the embedding the service returns for the description of
    the record during the call (not the one stored in the record) and
    [hours] is the time from the last access of the record to a reading
    of the clock during the call. In particular a record of importance 8,
    last accessed 2 hours before that reading, whose fresh embedding has
    cosine similarity 0.5 with the query's, scores 2.220 within 0.01, as
    long as [math.Exp] is accurate to one unit in the last place. *)
Theorem RetrieveMemories_scores (query : string) (w w' : W)
        (ms ms' : MemoryStream W) (out : list RetrievedMemory) :
  sortSliceContract ->
  RetrieveMemories query (w, ms) = ((w', ms'), Ok out) ->
  exists (w0 : W) (queryEmbedding : list float32)
         (scored : list RetrievedMemory),
    getEmbedding query (Client ms) w = (w0, Ok queryEmbedding)
    /\ Permutation scored out
    /\ Forall2
         (fun memory r =>
            Memory r = memory
            /\ exists (w1 w2 : W) (e : list float32) (relevance : float32),
                during (Client ms) w w1
                /\ getEmbedding (Description memory) (Client ms) w1
                   = (w2, Ok e)
                /\ cosineSimilarity queryEmbedding e = Some relevance
                /\ let sinceAccess :=
                     Sub (snd (readClock w2)) (LastAccessedTime memory) in
                   Score r =
                     F32.add
                       (F32.add relevance
                          (F32.of_f64
                             (math_Exp
                                (F64.div (F64.neg (Hours sinceAccess))
                                   (F64.of_Z 24)))))
                       (F32.of_f64 (F64.div (Importance memory) (F64.of_Z 10)))
                   /\ (expAccurateAtTwoHours ->
                       relevance = F32.of_pow2 1 (-1) ->
                       sinceAccess = 2 * Hour ->
                       Importance memory = F64.of_Z 8 ->
                       near2220 (Score r)))
         (Memories ms) scored.
Proof.
  intros Hsort Hrun. apply RetrieveMemories_ok in Hrun.
  destruct Hrun as (w0 & qe & touched & retrieved & Hq & Hsc & Hout & _ & _).
  exists w0, qe, retrieved. split; [exact Hq|]. split.
  - rewrite Hout. apply Hsort.
  - assert (D0 : during (Client ms) w w0)
      by (eapply during_getEmbedding; [apply during_refl | exact Hq]).
    destruct (scanned_during _ _ _ _ _ _ _ _ Hsc D0) as (_ & Hscored & _).
    eapply Forall2_impl; [|exact Hscored].
    intros memory r (Hm & w1 & w2 & e & relevance & D & He & Hc & Hs).
    split; [exact Hm|]. exists w1, w2, e, relevance.
    split; [exact D|]. split; [exact He|]. split; [exact Hc|].
    cbv zeta. split; [exact Hs|].
    intros Hexp Hrel Hsince Himp. rewrite Hs, Hrel, Hsince, Himp.
    now apply totalScore_scenario.
Qed.

End Claims.

(** C8, as the code has it. For vectors of equal length,
    [cosineSimilarity] does not depend on the order of its arguments and
    is exactly 0 when every component of one of them is zero. For a
    vector against itself it is exactly 1 when the sum of squares it
    accumulates in [float32] is a finite non-zero number that the product
    of its two square roots rounds back to (it is 0 when the squares
    underflow to zero). *)
Theorem cosineSimilarity_properties (a b : list float32) :
  List.length a = List.length b ->
  cosineSimilarity a b = cosineSimilarity b a
  /\ (Forall (fun x => is_zero x = true) a
      \/ Forall (fun x => is_zero x = true) b ->
      cosineSimilarity a b = Some F32.zero)
  /\ (let n := sumSquares a F32.zero in
      is_finite_nonzero n = true ->
      F32.of_f64 (F64.mul (F64.sqrt (F64.of_f32 n)) (F64.sqrt (F64.of_f32 n)))
        = n ->
      cosineSimilarity a a = Some F32.one).
Proof.
  intros Hlen. split; [now apply cosineSimilarity_sym|]. split.
  - intros [Ha|Hb].
    + now apply cosineSimilarity_zero_left.
    + rewrite cosineSimilarity_sym by exact Hlen.
      now apply cosineSimilarity_zero_left.
  - cbv zeta. intros Hfin Hround. rewrite cosineSimilarity_self, Hround.
    destruct (sumSquares a F32.zero) as [| | |s m e]; try discriminate.
    replace (F32.eqb (S754_finite s m e) F32.zero) with false
      by now destruct s.
    now rewrite SFdiv_self.
Qed.

Lemma AddMemory_atomic_witness :
  let s0 := (sim.start 0 1, sim.emptyStream sim.noEmbeddings) in
  let run := @memory.AddMemory _ sim.clock sim.go "a walk in the park" s0 in
  succeeded (snd run) = false /\ snd (fst run) = snd s0.
Proof.
  cbv zeta. split; [reflexivity|].
  eapply (@AddMemory_atomic _ sim.clock sim.go "a walk in the park"
            (sim.start 0 1) _ (sim.emptyStream sim.noEmbeddings) _ _);
    reflexivity.
Defined.

Lemma AddMemory_timestamps_witness :
  let s0 := (sim.start 0 1, sim.emptyStream sim.steady) in
  let run := @memory.AddMemory _ sim.clock sim.go "a walk in the park" s0 in
  snd run = Ok tt
  /\ exists m w2,
      memory.Memories (snd (fst run)) = memory.Memories (snd s0) ++ [m]
      /\ memory.Description m = "a walk in the park"%string
      /\ memory.during (memory.Client (snd s0)) (fst s0) w2
      /\ memory.CreationTime m = snd (readClock w2)
      /\ memory.LastAccessedTime m = snd (readClock (fst (readClock w2))).
Proof.
  cbv zeta. split; [reflexivity|].
  apply (@AddMemory_timestamps _ sim.clock sim.go "a walk in the park"
           (sim.start 0 1)
           (fst (fst (@memory.AddMemory _ sim.clock sim.go "a walk in the park"
                        (sim.start 0 1, sim.emptyStream sim.steady))))
           (sim.emptyStream sim.steady)).
  reflexivity.
Defined.

(** C7 as stated fails: with a clock that advances between two readings,
    the record [AddMemory] appends is created at 0 and last accessed at 1. *)
Lemma AddMemory_timestamps_counterexample :
  let s0 := (sim.start 0 1, sim.emptyStream sim.steady) in
  let run := @memory.AddMemory _ sim.clock sim.go "a walk in the park" s0 in
  snd run = Ok tt
  /\ exists m,
      memory.Memories (snd (fst run)) = [m]
      /\ memory.CreationTime m = 0
      /\ memory.LastAccessedTime m = 1
      /\ memory.LastAccessedTime m <> memory.CreationTime m.
Proof.
  cbv zeta. split; [reflexivity|].
  eexists. split; [reflexivity|]. cbn. repeat split. discriminate.
Qed.



Lemma Reflect_retrieves_from_live_stream_witness :
  let sc := sim.twoQuestions in
  let r := sim.reflector sc in
  let ms := sim.emptyStream sc in
  let w0 := fst (@reflect.generateReflectionQuestions _ sim.go []
                   (reflect.Client r) (sim.start 0 1)) in
  let s1 := fst (@reflect.reflectOnAll _ sim.clock sim.go r ["Q1"%string]
                   (w0, ms)) in
  let ret := @memory.RetrieveMemories _ sim.clock sim.go "Q2" s1 in
  let retrieved := match snd ret with Ok l => l | _ => [] end in
  map memory.Description (map memory.Memory retrieved) = ["I1"]%string
  /\ @reflect.reflectOnAll _ sim.clock sim.go r (["Q1"%string] ++ "Q2"%string :: [])%list
       (w0, ms)
     = @reflect.afterRetrieval _ sim.clock sim.go r "Q2" retrieved [] (fst ret)
  /\ Permutation (map memory.Memory retrieved) (memory.Memories (snd s1))
  /\ exists kept added,
      memory.Memories (snd s1) = kept ++ added
      /\ Forall2 memory.sameButAccess (memory.Memories ms) kept.
Proof.
  intros sc r ms w0 s1 ret retrieved.
  split; [vm_compute; reflexivity|].
  apply (@Reflect_retrieves_from_live_stream _ sim.clock sim.go r
           ["Q1"%string] [] "Q2"%string w0 ms s1 (fst ret) retrieved);
    [exact insertionSort_contract
    | vm_compute; reflexivity | vm_compute; reflexivity].
Defined.

(** C4 as stated fails: the stream is empty at the start of the pass; the
    fourth prompt the service receives, the one for the insights of the
    second question, lists the memories retrieved for that question, and
    the insight appended for the first question is the one it lists. *)
Lemma Reflect_retrieves_from_live_stream_counterexample :
  let sc := sim.twoQuestions in
  let s0 := (sim.start 0 1, sim.emptyStream sc) in
  let run := @reflect.Reflect _ sim.clock sim.go (sim.reflector sc) [] s0 in
  memory.Memories (snd s0) = []
  /\ snd run = Ok tt
  /\ map memory.Description (memory.Memories (snd (fst run)))
     = ["I1"; "I2"]%string
  /\ nth 3 (sim.prompts (fst (fst run))) EmptyString
     = ("Statements about the question " ++ dquote ++ "Q2" ++ dquote ++ ":"
          ++ newline ++ "1. I1")%string.
Proof.
  intros sc s0 run. repeat split; vm_compute; reflexivity.
Qed.

Lemma Reflect_without_questions_witness :
  let sc := sim.noQuestions in
  let r := sim.reflector sc in
  let w := sim.start 0 1 in
  let ms := sim.emptyStream sc in
  let call := reflect.CreateChatCompletion (reflect.Client r)
                (openai.chat reflect.questionsPrompt
                   (Join (map memory.Description []) newline)) w in
  @reflect.Reflect _ sim.clock sim.go r [] (w, ms) = ((fst call, ms), Ok tt).
Proof.
  intros sc r w ms call.
  apply (@Reflect_without_questions _ sim.clock sim.go r [] w (fst call) ms
           {| openai.Choices :=
                [ {| openai.Message :=
                       {| openai.Role := "assistant";
                          openai.Content := "" |} |} ] |}
           {| openai.Message :=
                {| openai.Role := "assistant"; openai.Content := "" |} |}
           []); vm_compute; reflexivity.
Defined.

(** C6 as stated fails: the completion for the questions succeeds with an
    empty text, no question is parsed, and [Reflect] returns no error. *)
Lemma Reflect_without_questions_counterexample :
  let sc := sim.noQuestions in
  let s0 := (sim.start 0 1, sim.emptyStream sc) in
  sim.complete sc 0 reflect.questionsPrompt "" = Ok ""%string
  /\ @reflect.parseQuestions sim.go "" = []
  /\ snd (@reflect.Reflect _ sim.clock sim.go (sim.reflector sc) [] s0)
     = Ok tt.
Proof.
  cbv zeta. split; [|split]; vm_compute; reflexivity.
Qed.




Lemma RetrieveMemories_scores_witness :
  let ms := sim.streamOf sim.halfSimilar [sim.record "lunch" 0] in
  let w := sim.start (2 * Hour) 0 in
  let run := @memory.RetrieveMemories _ sim.clock sim.go "query" (w, ms) in
  let out := match snd run with Ok l => l | _ => [] end in
  @expAccurateAtTwoHours sim.go
  /\ snd run = Ok out
  /\ map memory.Score out = [S754_finite false 9311541 (-22)]
  /\ Forall near2220 (map memory.Score out)
  /\ exists w0 queryEmbedding scored,
      memory.getEmbedding "query" (memory.Client ms) w
        = (w0, Ok queryEmbedding)
      /\ Permutation scored out.
Proof.
  intros ms w run out.
  split; [right; left; vm_compute; reflexivity|].
  split; [vm_compute; reflexivity|].
  assert (Escore : map memory.Score out = [S754_finite false 9311541 (-22)])
    by (vm_compute; reflexivity).
  split; [exact Escore|].
  split; [rewrite Escore; constructor;
          [split; vm_compute; reflexivity | constructor]|].
  assert (Hrun : @memory.RetrieveMemories _ sim.clock sim.go "query" (w, ms)
                 = ((fst (fst run), snd (fst run)), Ok out))
    by (vm_compute; reflexivity).
  destruct (@RetrieveMemories_scores _ sim.clock sim.go "query" w
              (fst (fst run)) ms (snd (fst run)) out
              insertionSort_contract Hrun)
    as (w0 & qe & scored & Hq & Hperm & _).
  exists w0, qe, scored. split; [exact Hq | exact Hperm].
Defined.

(** C1 as stated fails: the record is created while the service embeds
    its description as (1,0), which is what the record stores; at the
    retrieval the service embeds the same description as (0,1). The score
    returned is the one of the fresh embedding (relevance 0), not the one
    the stored embedding gives (relevance 1). The clock stands still, so
    the time since the last access is 0 whichever reading is taken. *)
Lemma RetrieveMemories_scores_counterexample :
  let sc := sim.driftingEmbeddings in
  let s0 := (sim.start 0 0, sim.emptyStream sc) in
  let s1 := fst (@memory.AddMemory _ sim.clock sim.go "lunch" s0) in
  let run := @memory.RetrieveMemories _ sim.clock sim.go "query" s1 in
  exists (r : memory.RetrievedMemory) (queryEmbedding : list float32),
    snd run = Ok [r]
    /\ snd (@memory.getEmbedding _ "query" (memory.Client (snd s1)) (fst s1))
       = Ok queryEmbedding
    /\ memory.Memories (snd s1) = [memory.Memory r]
    /\ cosineSimilarity queryEmbedding (memory.Embedding (memory.Memory r))
       = Some F32.one
    /\ memory.Score r
       <> @memory.totalScore sim.go F32.one
            (Sub 0 (memory.LastAccessedTime (memory.Memory r)))
            (memory.Importance (memory.Memory r)).
Proof.
  intros sc s0 s1 run. eexists. eexists.
  split; [vm_compute; reflexivity|].
  split; [vm_compute; reflexivity|].
  split; [vm_compute; reflexivity|].
  split; [vm_compute; reflexivity|].
  vm_compute. discriminate.
Qed.



Lemma cosineSimilarity_properties_witness :
  let v := [F32.of_Z 3; F32.of_Z 4] in
  sumSquares v F32.zero = F32.of_Z 25
  /\ cosineSimilarity v v = Some F32.one.
Proof.
  intros v. split; [vm_compute; reflexivity|].
  apply (proj2 (proj2 (cosineSimilarity_properties v v eq_refl)));
    vm_compute; reflexivity.
Defined.

(** C8 as stated fails: the one component of this vector is 2^-100, a
    [float32] that is not zero; its square underflows to zero, and the
    similarity of the vector with itself is 0, not 1. *)
Lemma cosineSimilarity_properties_counterexample :
  let x := F32.of_pow2 1 (-100) in
  valid_binary F32.prec F32.emax x = true
  /\ is_finite_nonzero x = true
  /\ cosineSimilarity [x] [x] = Some F32.zero
  /\ cosineSimilarity [x] [x] <> Some F32.one.
Proof.
  intros x. repeat split; try (vm_compute; reflexivity).
  vm_compute. discriminate.
Qed.

(** * Further properties of the code *)

(** ** [cosineSimilarity] and vectors of different lengths *)

Lemma cosineLoop_None (a b : list float32) :
  forall d na nb,
    cosineLoop a b d na nb = None <-> (List.length b < List.length a)%nat.
Proof.
  revert b. induction a as [|x a IH]; intros [|y b] d na nb; cbn.
  - split; [discriminate | lia].
  - split; [discriminate | lia].
  - split; [lia | reflexivity].
  - rewrite IH. lia.
Qed.

Lemma cosineLoop_firstn (a b : list float32) :
  forall d na nb,
    cosineLoop a (firstn (List.length a) b) d na nb = cosineLoop a b d na nb.
Proof.
  revert b. induction a as [|x a IH]; intros [|y b] d na nb; cbn; auto.
Qed.

(** [cosineSimilarity(a, b)] panics exactly when [b] is shorter than [a];
    when [b] is longer, its components past the length of [a] are not
    read. *)
Theorem cosineSimilarity_dimensions (a b : list float32) :
  (cosineSimilarity a b = None <-> (List.length b < List.length a)%nat)
  /\ cosineSimilarity a (firstn (List.length a) b) = cosineSimilarity a b.
Proof.
  unfold cosineSimilarity. split.
  - rewrite <- (cosineLoop_None a b F32.zero F32.zero F32.zero).
    destruct (cosineLoop a b F32.zero F32.zero F32.zero) as [[[d na] nb]|].
    + split; [|discriminate].
      destruct (F32.eqb na F32.zero || F32.eqb nb F32.zero); discriminate.
    + tauto.
  - now rewrite cosineLoop_firstn.
Qed.

(** ** The memory stream *)

Section MemoryProperties.
Import memory.
Context {W : Type} `{Clock W} `{GoLibrary}.

(** [GetRecentMemories] panics on a negative [n]; otherwise it returns the
    last [min(n, len)] records of the stream, in their order: a suffix of
    the stream, and the whole of it when [n] is at least its length. *)
Theorem GetRecentMemories_suffix (n : Z) (ms : MemoryStream W) :
  (n < 0 -> GetRecentMemories n ms = None)
  /\ (0 <= n ->
      exists older recent,
        GetRecentMemories n ms = Some recent
        /\ Memories ms = older ++ recent
        /\ Z.of_nat (List.length recent)
           = Z.min n (Z.of_nat (List.length (Memories ms))))
  /\ (Z.of_nat (List.length (Memories ms)) <= n ->
      GetRecentMemories n ms = Some (Memories ms)).
Proof.
  unfold GetRecentMemories.
  set (len := Z.of_nat (List.length (Memories ms))).
  assert (Hlen : 0 <= len) by (unfold len; lia).
  repeat split.
  - intros Hn. destruct (len <? n) eqn:E; [apply Z.ltb_lt in E; lia|].
    apply Z.ltb_lt in Hn. now rewrite Hn.
  - intros Hn. destruct (len <? n) eqn:E.
    + replace (len <? 0) with false by (symmetry; apply Z.ltb_ge; lia).
      rewrite Z.sub_diag. cbn. exists [], (Memories ms). repeat split.
      apply Z.ltb_lt in E. fold len. lia.
    + apply Z.ltb_ge in E.
      replace (n <? 0) with false by (symmetry; apply Z.ltb_ge; lia).
      exists (firstn (Z.to_nat (len - n)) (Memories ms)),
             (skipn (Z.to_nat (len - n)) (Memories ms)).
      repeat split.
      * now rewrite firstn_skipn.
      * rewrite length_skipn. fold len. unfold len in *. lia.
  - intros Hn. destruct (len <? n) eqn:E.
    + replace (len <? 0) with false by (symmetry; apply Z.ltb_ge; lia).
      now rewrite Z.sub_diag.
    + apply Z.ltb_ge in E. assert (n = len) by lia. subst n.
      replace (len <? 0) with false by (symmetry; apply Z.ltb_ge; lia).
      now rewrite Z.sub_diag.
Qed.

(** A successful [AddMemory] appends one record at the end of the stream
    and changes nothing else of it. The record holds the description, the
    first embedding of the response to the embedding request for that
    description, and as importance the number [strconv.ParseFloat] reads
    in the trimmed text of the first choice of the rating completion. *)
Theorem AddMemory_stores_what_the_service_returns
        (description : string) (w w' : W) (ms ms' : MemoryStream W) :
  AddMemory description (w, ms) = ((w', ms'), Ok tt) ->
  exists (w1 w2 : W) (resp : openai.ChatCompletionResponse)
         (choice : openai.ChatCompletionChoice) (m : MemoryObject),
    getEmbedding description (Client ms) w = (w1, Ok (Embedding m))
    /\ CreateChatCompletion (Client ms)
         (openai.chat importancePrompt description) w1 = (w2, Ok resp)
    /\ hd_error (openai.Choices resp) = Some choice
    /\ strconv_ParseFloat
         (TrimSpace (openai.Content (openai.Message choice)))
       = inr (Importance m)
    /\ Description m = description
    /\ Memories ms' = Memories ms ++ [m]
    /\ Client ms' = Client ms.
Proof.
  rewrite AddMemory_run.
  destruct (getEmbedding description (Client ms) w) as [w1 [embed|e|]] eqn:He;
    try discriminate.
  destruct (rateImportance description (Client ms) w1) as [w2 [imp|e|]] eqn:Hr;
    try discriminate.
  destruct (readClock w2) as [w3 created].
  destruct (readClock w3) as [w4 accessed].
  intros Heq; inversion Heq; subst; clear Heq.
  unfold rateImportance, parseImportanceRating in Hr. unfold_monad.
  destruct (CreateChatCompletion (Client ms) _ w1) as [w2' [resp|e|]] eqn:Hc;
    try discriminate.
  destruct (openai.Choices resp) as [|choice others] eqn:Hch;
    try discriminate.
  destruct (strconv_ParseFloat _) as [e|rating] eqn:Hp; try discriminate.
  inversion Hr; subst.
  eexists w1, w2, resp, choice, _. cbn.
  repeat split; eauto. now rewrite Hch.
Qed.

(** The error [AddMemory] returns names the step that failed. When the
    embedding fails, the error is wrapped as "failed to get embedding" and
    nothing else is asked of the outside world: no rating is requested and
    the clock is not read. When the rating fails (the completion or the
    parsing of its text), the error is wrapped as "failed to rate
    importance". *)
Theorem AddMemory_error_names_the_step
        (description : string) (w w' : W) (ms ms' : MemoryStream W)
        (e : error) :
  AddMemory description (w, ms) = ((w', ms'), Fail e) ->
  (exists e0,
      getEmbedding description (Client ms) w = (w', Fail e0)
      /\ e = Wrap "failed to get embedding: " e0)
  \/ (exists w1 embed e0,
        getEmbedding description (Client ms) w = (w1, Ok embed)
        /\ rateImportance description (Client ms) w1 = (w', Fail e0)
        /\ e = Wrap "failed to rate importance: " e0).
Proof.
  rewrite AddMemory_run.
  destruct (getEmbedding description (Client ms) w) as [w1 [embed|e0|]] eqn:He;
    try discriminate.
  - destruct (rateImportance description (Client ms) w1) as [w2 [imp|e0|]]
      eqn:Hr; try discriminate.
    + destruct (readClock w2) as [w3 created].
      destruct (readClock w3) as [w4 accessed]. discriminate.
    + intros Heq; inversion Heq; subst. right.
      exists w1, embed, e0. auto.
  - intros Heq; inversion Heq; subst. left. exists e0. auto.
Qed.

(** A pass of the loop of [RetrieveMemories] that returns an error has
    touched the records before the one whose embedding failed, and no
    other; the error is the one of the service, as it is. *)
Lemma scan_fail (q : list float32) (rest : list MemoryObject) :
  forall i acc w0 w ms w' ms' e,
    during (Client ms) w0 w ->
    skipn i (Memories ms) = rest ->
    scan q i rest acc (w, ms) = ((w', ms'), Fail e) ->
    exists done touched memory rest' w1,
      rest = done ++ memory :: rest'
      /\ Forall2 (touchedDuring (Client ms) w0) done touched
      /\ Memories ms' = firstn i (Memories ms) ++ touched ++ memory :: rest'
      /\ Client ms' = Client ms
      /\ during (Client ms) w0 w1
      /\ getEmbedding (Description memory) (Client ms) w1 = (w', Fail e).
Proof.
  induction rest as [|memory rest IH];
    intros i acc w0 w ms w' ms' e D Hs Hrun.
  - cbn in Hrun. discriminate.
  - rewrite scan_step in Hrun.
    destruct (getEmbedding (Description memory) (Client ms) w)
      as [w1 [emb|err|]] eqn:He; try discriminate.
    + destruct (cosineSimilarity q emb) as [relevance|] eqn:Hc;
        [|discriminate].
      destruct (readClock w1) as [w2 now] eqn:H1.
      destruct (readClock w2) as [w3 accessed] eqn:H2.
      rewrite (skipn_nth_error _ _ _ _ Hs) in Hrun.
      destruct (setNth_skipn i (accessedAt accessed memory) memory
                  (Memories ms) rest Hs) as [Eset Eskip].
      assert (D1 : during (Client ms) w0 w1)
        by (eapply during_getEmbedding; eauto).
      assert (D2 : during (Client ms) w0 w2) by (eapply during_clock; eauto).
      assert (D3 : during (Client ms) w0 w3) by (eapply during_clock; eauto).
      eapply (IH (S i) _ w0) in Hrun; [|exact D3|exact Eskip].
      cbn [Memories Client] in Hrun.
      destruct Hrun as (done & touched & m & rest' & wf & Er & Ft & Em & Ec
                        & Df & Hf).
      exists (memory :: done), (accessedAt accessed memory :: touched),
             m, rest', wf.
      repeat split; auto.
      * cbn. now rewrite Er.
      * constructor; [|exact Ft]. exists w2. rewrite H2. cbn. auto.
      * rewrite Em, Eset.
        assert (Hlen : (i < List.length (Memories ms))%nat).
        { apply nth_error_Some. now rewrite (skipn_nth_error _ _ _ _ Hs). }
        rewrite firstn_app, firstn_firstn, length_firstn.
        replace (Nat.min (S i) i) with i by lia.
        replace (S i - Nat.min i (List.length (Memories ms)))%nat
          with 1%nat by lia.
        cbn. now rewrite <- !app_assoc.
    + inversion Hrun; subst.
      exists [], [], memory, rest, w. repeat split; auto.
      cbn. rewrite <- Hs. now rewrite firstn_skipn.
Qed.

(** When [RetrieveMemories] returns an error, the error is the one the
    embedding service gave, unwrapped: for the query, and then the stream
    is as it was, or for the description of one record, and then the
    records before that one have been given an access time read during
    the call while that record and the ones after it are as they were. *)
Theorem RetrieveMemories_error (query : string) (w w' : W)
        (ms ms' : MemoryStream W) (e : error) :
  RetrieveMemories query (w, ms) = ((w', ms'), Fail e) ->
  (getEmbedding query (Client ms) w = (w', Fail e) /\ ms' = ms)
  \/ (exists done touched memory rest w1,
        Memories ms = done ++ memory :: rest
        /\ Memories ms' = touched ++ memory :: rest
        /\ Forall2 (touchedDuring (Client ms) w) done touched
        /\ during (Client ms) w w1
        /\ getEmbedding (Description memory) (Client ms) w1 = (w', Fail e)).
Proof.
  rewrite RetrieveMemories_run.
  destruct (getEmbedding query (Client ms) w) as [w0 [qe|e0|]] eqn:Hq;
    try discriminate.
  - destruct (scan qe 0 (Memories ms) [] (w0, ms)) as [[w1 ms1] [out|e1|]]
      eqn:Hscan; try discriminate.
    intros Heq; inversion Heq; subst. right.
    eapply (scan_fail qe (Memories ms) 0 [] w) in Hscan;
      [|eapply during_getEmbedding; [apply during_refl|exact Hq]|reflexivity].
    destruct Hscan as (done & touched & m & rest & wf & Er & Ft & Em & _
                       & Df & Hf).
    exists done, touched, m, rest, wf. cbn in Em. repeat split; auto.
  - intros Heq; inversion Heq; subst. left. auto.
Qed.

(** A successful [RetrieveMemories] returns one scored copy of every
    record, whatever its score (nothing is cut off), and each copy is the
    record as it was before the call, its earlier access time included;
    from an empty stream it returns the empty sequence. *)
Theorem RetrieveMemories_returns_every_record (query : string) (w w' : W)
        (ms ms' : MemoryStream W) (out : list RetrievedMemory) :
  sortSliceContract ->
  RetrieveMemories query (w, ms) = ((w', ms'), Ok out) ->
  Permutation (map Memory out) (Memories ms)
  /\ List.length out = List.length (Memories ms)
  /\ (Memories ms = [] -> out = []).
Proof.
  intros Hsort Hrun. apply RetrieveMemories_ok in Hrun.
  destruct Hrun as (w0 & qe & touched & retrieved & _ & Hsc & Hout & _ & _).
  apply scanned_memories in Hsc.
  assert (Hperm : Permutation (map Memory out) (Memories ms)).
  { rewrite <- Hsc, Hout. apply Permutation_map. symmetry. apply Hsort. }
  split; [exact Hperm|]. split.
  - rewrite <- (length_map Memory out). now apply Permutation_length.
  - intros Hempty. rewrite Hempty in Hperm.
    apply Permutation_sym, Permutation_nil in Hperm.
    now destruct out.
Qed.

Lemma Forall2_nth_error {A B} (R : A -> B -> Prop) (l : list A) (l' : list B) :
  Forall2 R l l' ->
  forall i,
    match nth_error l i, nth_error l' i with
    | Some x, Some y => R x y
    | None, None => True
    | _, _ => False
    end.
Proof.
  induction 1 as [|x y l l' Hxy _ IH]; intros [|i]; cbn; auto. apply IH.
Qed.

Lemma Forall2_setNth {A B} (R : A -> B -> Prop) (l : list A) (l' : list B)
      (x : A) (y : B) :
  Forall2 R l l' -> R x y ->
  forall i, Forall2 R (setNth i x l) (setNth i y l').
Proof.
  induction 1 as [|a b l l' Hab Hl IH]; intros Hxy [|i]; cbn;
    constructor; auto.
Qed.

Lemma sameButEmbedding_accessedAt (t : Time) (m m' : MemoryObject) :
  sameButEmbedding m m' -> sameButEmbedding (accessedAt t m) (accessedAt t m').
Proof. intros (A1 & A2 & A3 & A4). repeat split; cbn; auto. Qed.

(** The loop of [RetrieveMemories] does not read the embeddings the
    records store. *)
Lemma scan_ignores_stored_embeddings (q : list float32)
      (rest1 rest2 : list MemoryObject) :
  Forall2 sameButEmbedding rest1 rest2 ->
  forall i acc1 acc2 w (ms1 ms2 : MemoryStream W) w1 w2 ms1' ms2' r1 r2,
    Client ms1 = Client ms2 ->
    Forall2 sameButEmbedding (Memories ms1) (Memories ms2) ->
    Forall2 sameScore acc1 acc2 ->
    scan q i rest1 acc1 (w, ms1) = ((w1, ms1'), r1) ->
    scan q i rest2 acc2 (w, ms2) = ((w2, ms2'), r2) ->
    w1 = w2
    /\ Client ms1' = Client ms2'
    /\ Forall2 sameButEmbedding (Memories ms1') (Memories ms2')
    /\ sameOutcome (Forall2 sameScore) r1 r2.
Proof.
  induction 1 as [|m1 m2 rest1 rest2 Hm Hrest IH];
    intros i acc1 acc2 w ms1 ms2 w1 w2 ms1' ms2' r1 r2 Hc Hmem Hacc Hr1 Hr2.
  - cbn in Hr1, Hr2. inversion Hr1; inversion Hr2; subst. repeat split; auto.
  - rewrite scan_step in Hr1, Hr2.
    destruct Hm as (Hd & Hct & Hla & Himp).
    rewrite <- Hc, Hd, Hla, Himp in Hr2.
    destruct (getEmbedding (Description m1) (Client ms1) w)
      as [wa [emb|err|]];
      try (inversion Hr1; inversion Hr2; subst; repeat split; now auto).
    destruct (cosineSimilarity q emb) as [relevance|];
      [|inversion Hr1; inversion Hr2; subst; repeat split; now auto].
    destruct (readClock wa) as [wb now].
    destruct (readClock wb) as [wc accessed].
    pose proof (Forall2_nth_error _ _ _ Hmem i) as Hn.
    destruct (nth_error (Memories ms1) i) as [mi1|],
             (nth_error (Memories ms2) i) as [mi2|]; try contradiction;
      [|inversion Hr1; inversion Hr2; subst; repeat split; now auto].
    eapply IH; [| | |exact Hr1|exact Hr2].
    + reflexivity.
    + cbn. apply Forall2_setNth; auto using sameButEmbedding_accessedAt.
    + apply Forall2_app; [exact Hacc|]. constructor; [|constructor].
      split; cbn; [reflexivity|]. repeat split; auto.
Qed.

(** The embeddings the records store play no part in a retrieval: on two
    streams whose records differ at most in their stored embeddings, it
    leaves the same world, has the same outcome and, when it succeeds,
    returns the same scores. *)
Theorem RetrieveMemories_ignores_stored_embeddings (query : string) (w : W)
        (ms1 ms2 ms1' ms2' : MemoryStream W) (w1 w2 : W)
        (r1 r2 : outcome (list RetrievedMemory)) :
  sortSliceContract ->
  Client ms1 = Client ms2 ->
  Forall2 sameButEmbedding (Memories ms1) (Memories ms2) ->
  RetrieveMemories query (w, ms1) = ((w1, ms1'), r1) ->
  RetrieveMemories query (w, ms2) = ((w2, ms2'), r2) ->
  w1 = w2
  /\ Forall2 sameButEmbedding (Memories ms1') (Memories ms2')
  /\ sameOutcome
       (fun out1 out2 => Permutation (map Score out1) (map Score out2))
       r1 r2.
Proof.
  intros Hsort Hc Hmem. rewrite !RetrieveMemories_run. rewrite <- Hc.
  destruct (getEmbedding query (Client ms1) w) as [w0 [qe|e|]];
    try (intros Hr1 Hr2; inversion Hr1; inversion Hr2; subst;
         repeat split; now auto).
  destruct (scan qe 0 (Memories ms1) [] (w0, ms1)) as [[wa msa] ra] eqn:Ha.
  destruct (scan qe 0 (Memories ms2) [] (w0, ms2)) as [[wb msb] rb] eqn:Hb.
  destruct (scan_ignores_stored_embeddings qe _ _ Hmem 0 [] [] w0 ms1 ms2
              wa wb msa msb ra rb Hc Hmem (Forall2_nil _) Ha Hb)
    as (Hw & _ & Hm & Ho).
  destruct ra as [o1|e1|], rb as [o2|e2|]; cbn in Ho; try contradiction;
    intros Hr1 Hr2; inversion Hr1; inversion Hr2; subst;
    repeat split; auto.
  cbn.
  assert (Hscores : map Score o1 = map Score o2).
  { clear -Ho. induction Ho as [|x y l l' [Hs _] _ IH]; cbn; congruence. }
  destruct (Hsort RetrievedMemory byScoreDesc o1) as [P1 _].
  destruct (Hsort RetrievedMemory byScoreDesc o2) as [P2 _].
  rewrite <- (Permutation_map Score P1), <- (Permutation_map Score P2).
  now rewrite Hscores.
Qed.
End MemoryProperties.

(** ** Reflection *)

Section ReflectProperties.
Import memory.
Context {W : Type} `{Clock W} `{GoLibrary}.

(** Whatever its outcome, [Reflect] keeps the records the stream held, in
    their order, changed at most in their access times; what it adds, it
    adds after them. It never removes or rewrites a record. *)
Theorem Reflect_only_appends (r : reflect.Reflector W)
        (memories : list MemoryObject) (w w' : W)
        (ms ms' : MemoryStream W) (o : outcome unit) :
  reflect.Reflect r memories (w, ms) = ((w', ms'), o) ->
  Client ms' = Client ms
  /\ exists kept added,
      Memories ms' = kept ++ added
      /\ Forall2 sameButAccess (Memories ms) kept.
Proof.
  rewrite Reflect_run.
  destruct (reflect.generateReflectionQuestions _ _ w) as [w0 [qs|e|]];
    try (intros Heq; inversion Heq; subst; apply grows_refl).
  apply reflectOnAll_grows.
Qed.

Lemma subsequence_refl {A} (l : list A) : subsequence l l.
Proof. induction l; constructor; auto. Qed.


Lemma addInsights_reliable (ms : MemoryStream W) (insights : list string) :
  appendsReliably ms ->
  forall (w w' : W) (ms0 ms' : MemoryStream W) (o : outcome unit),
    Client ms0 = Client ms ->
    reflect.addInsights insights (w, ms0) = ((w', ms'), o) ->
    o = Ok tt
    /\ Client ms' = Client ms
    /\ descriptions ms' = descriptions ms0 ++ insights.
Proof.
  intros Hrel. induction insights as [|i insights IH];
    intros w w' ms0 ms' o Hc; cbn.
  - intros Heq; inversion Heq; subst. unfold descriptions.
    now rewrite app_nil_r.
  - unfold bind, ignoring.
    pose proof (Hrel i w ms0 Hc) as Hok.
    destruct (AddMemory i (w, ms0)) as [[w1 ms1] o1] eqn:Ha.
    cbn in Hok. subst o1.
    pose proof (AddMemory_timestamps _ _ _ _ _ Ha)
      as (m & w2 & Em & Ed & _).
    pose proof (AddMemory_appends _ _ _ _ _ _ Ha) as [Hc1 _].
    intros Hrest. apply IH in Hrest; [|congruence].
    destruct Hrest as (Ho & Hc2 & Hd). repeat split; auto.
    rewrite Hd. unfold descriptions. rewrite Em, map_app. cbn.
    now rewrite Ed, <- app_assoc.
Qed.

Lemma descriptions_sameButAccess (l l' : list MemoryObject) :
  Forall2 sameButAccess l l' -> map Description l' = map Description l.
Proof.
  induction 1 as [|x y l l' (Hd & _) _ IH]; cbn; congruence.
Qed.

Lemma reflectOnAll_reliable (r : reflect.Reflector W) (ms : MemoryStream W)
      (ins : string -> list string) (questions : list string) :
  appendsReliably ms ->
  insightsAre r ins ->
  forall (w w' : W) (ms0 ms' : MemoryStream W),
    Client ms0 = Client ms ->
    reflect.reflectOnAll r questions (w, ms0) = ((w', ms'), Ok tt) ->
    Client ms' = Client ms
    /\ descriptions ms' = descriptions ms0 ++ flat_map ins questions.
Proof.
  intros Hrel Hins. induction questions as [|q questions IH];
    intros w w' ms0 ms' Hc; cbn.
  - intros Heq; inversion Heq; subst. unfold descriptions.
    now rewrite app_nil_r.
  - unfold bind. rewrite reflectOn_run.
    destruct (RetrieveMemories q (w, ms0)) as [[w1 ms1] [retrieved|e|]]
      eqn:Hret; try discriminate.
    apply RetrieveMemories_frame in Hret. destruct Hret as [Hc1 Hf1].
    cbn [fst snd].
    destruct (reflect.generateInsights q retrieved (reflect.Client r) w1)
      as [w2 [insights|e|]] eqn:Hgen; try discriminate.
    apply Hins in Hgen. subst insights.
    destruct (reflect.addInsights (ins q) (w2, ms1)) as [[w3 ms3] o3] eqn:Hadd.
    eapply addInsights_reliable in Hadd; [|exact Hrel|congruence].
    destruct Hadd as (Ho & Hc3 & Hd3). subst o3.
    intros Hrest. apply IH in Hrest; [|exact Hc3].
    destruct Hrest as (Hc' & Hd'). split; [exact Hc'|].
    rewrite Hd', Hd3. unfold descriptions at 1.
    rewrite (descriptions_sameButAccess _ _ Hf1).
    now rewrite <- app_assoc.
Qed.

(** With a service that never fails an append and that gives for each
    question the insights [ins question], a pass of [Reflect] that
    succeeds appends all the insights of all the questions, and nothing
    else: the insights of the first question in their order, then those
    of the second, and so on (three questions of five insights each: 15
    records). *)
Theorem Reflect_appends_insights_in_order (r : reflect.Reflector W)
        (memories : list MemoryObject) (ins : string -> list string)
        (questions : list string) (w w0 w' : W) (ms ms' : MemoryStream W) :
  appendsReliably ms ->
  insightsAre r ins ->
  reflect.generateReflectionQuestions (map Description memories)
    (reflect.Client r) w = (w0, Ok questions) ->
  reflect.Reflect r memories (w, ms) = ((w', ms'), Ok tt) ->
  descriptions ms' = descriptions ms ++ flat_map ins questions
  /\ List.length (Memories ms')
     = (List.length (Memories ms)
        + List.length (flat_map ins questions))%nat.
Proof.
  intros Hrel Hins Hq. rewrite Reflect_run, Hq. intros Hrun.
  eapply reflectOnAll_reliable in Hrun; eauto.
  destruct Hrun as [_ Hd]. split; [exact Hd|].
  apply (f_equal (@List.length string)) in Hd.
  unfold descriptions in Hd. now rewrite length_app, !length_map in Hd.
Qed.
End ReflectProperties.

(** ** The parsers of the completions *)

Section ParserProperties.
Import reflect.
Context `{GoLibrary}.

Lemma trimStart_blank (s : string) :
  Forall (fun c => asciiSpace c = true) (bytes s) -> trimStart s = EmptyString.
Proof.
  induction s as [|c s IH]; cbn; [reflexivity|].
  intros Hall. inversion Hall; subst.
  match goal with E : asciiSpace c = true |- _ => rewrite E end. auto.
Qed.

Lemma TrimSpace_blank (s : string) :
  Forall (fun c => asciiSpace c = true) (bytes s) -> TrimSpace s = EmptyString.
Proof. intros Hall. unfold TrimSpace. now rewrite trimStart_blank. Qed.

Lemma Split_bytes (P : ascii -> Prop) (sep : ascii) (s : string) :
  Forall P (bytes s) ->
  Forall (fun line => Forall P (bytes line)) (Split s sep).
Proof.
  induction s as [|c s IH]; cbn; intros Hall.
  - repeat constructor.
  - inversion Hall as [|? ? Hc Hs]; subst. specialize (IH Hs).
    destruct (c =? sep)%char.
    + constructor; [constructor | exact IH].
    + destruct (Split s sep) as [|h t].
      * repeat constructor. exact Hc.
      * inversion IH; subst. constructor; [|assumption].
        cbn. constructor; assumption.
Qed.

(** Both parsers read the completion line by line: each line that is not
    blank once trimmed yields exactly one item, and the items come in the
    order of the lines; a blank line yields nothing. *)
Theorem parsers_one_item_per_line (output : string) :
  let lines := Split output "010" in
  parseQuestions output = flat_map questionOf lines
  /\ parseInsights output = flat_map insightOf lines
  /\ List.length (parseQuestions output)
     = List.length (filter notBlank lines)
  /\ List.length (parseInsights output)
     = List.length (filter notBlank lines).
Proof.
  cbv zeta. unfold parseQuestions, parseInsights.
  rewrite parseQuestionsLoop_flat_map, parseInsightsLoop_flat_map. cbn [app].
  repeat split.
  - induction (Split output "010") as [|raw lines IH]; cbn; [reflexivity|].
    rewrite length_app, IH. unfold questionOf, notBlank.
    now destruct (TrimSpace raw =? "")%string.
  - induction (Split output "010") as [|raw lines IH]; cbn; [reflexivity|].
    rewrite length_app, IH. unfold insightOf, notBlank.
    now destruct (TrimSpace raw =? "")%string.
Qed.

(** A completion made of ASCII white space only (spaces, tabs, line
    breaks), the empty one included, yields no question and no insight. *)
Theorem parsers_blank_output (output : string) :
  Forall (fun c => asciiSpace c = true) (bytes output) ->
  parseQuestions output = [] /\ parseInsights output = [].
Proof.
  intros Hall. apply (Split_bytes _ "010") in Hall.
  unfold parseQuestions, parseInsights.
  rewrite parseQuestionsLoop_flat_map, parseInsightsLoop_flat_map. cbn [app].
  induction Hall as [|raw lines Hraw _ [IHq IHi]]; [now split|].
  cbn. rewrite IHq, IHi. unfold questionOf, insightOf.
  rewrite (TrimSpace_blank raw Hraw). now split.
Qed.

Lemma plainByte_inv (c : ascii) :
  plainByte c = true -> asciiSpace c = false /\ geRuneSelf c = false.
Proof.
  unfold plainByte. destruct (asciiSpace c), (geRuneSelf c); cbn;
    intros; try discriminate; auto.
Qed.

Lemma list_ascii_of_string_app (s t : string) :
  list_ascii_of_string (s ++ t)
  = (list_ascii_of_string s ++ list_ascii_of_string t)%list.
Proof. induction s as [|c s IH]; cbn; congruence. Qed.

Lemma append_assoc (s t u : string) :
  (s ++ (t ++ u))%string = ((s ++ t) ++ u)%string.
Proof. induction s as [|c s IH]; cbn; [reflexivity | now rewrite IH]. Qed.

Lemma lastByte_app (s t : string) (d : ascii) :
  lastByte t = Some d -> lastByte (s ++ t) = Some d.
Proof.
  unfold lastByte. rewrite list_ascii_of_string_app, rev_app_distr.
  destruct (rev (list_ascii_of_string t)); [discriminate|]. now cbn.
Qed.

Lemma lastByte_cons (c : ascii) (t : string) (d : ascii) :
  lastByte t = Some d -> lastByte (String c t) = Some d.
Proof. apply (lastByte_app (String c EmptyString) t). Qed.

Lemma trimStop_plain (s : string) (d : ascii) :
  lastByte s = Some d -> asciiSpace d = false -> trimStop s = s.
Proof.
  unfold lastByte, trimStop. intros Hlast Hd.
  destruct (rev (list_ascii_of_string s)) as [|x l] eqn:E; [discriminate|].
  inversion Hlast; subst x. cbn. rewrite Hd.
  rewrite <- E, rev_involutive. apply string_of_list_ascii_of_string.
Qed.

(** [TrimSpace] leaves a tidy text as it is. *)
Lemma TrimSpace_tidy (s : string) : tidy s -> TrimSpace s = s.
Proof.
  intros [Hfirst Hlast]. destruct s as [|c s]; [contradiction|].
  destruct (lastByte (String c s)) as [d|] eqn:Ed; [|contradiction].
  apply plainByte_inv in Hfirst, Hlast.
  destruct Hfirst as [Hc1 Hc2], Hlast as [Hd1 Hd2].
  unfold TrimSpace. cbn [trimStart]. rewrite Hc1, Hc2.
  rewrite (trimStop_plain _ _ Ed Hd1), Ed, Hd2. reflexivity.
Qed.

Lemma TrimSpace_after_space (s : string) :
  TrimSpace (String " " s) = TrimSpace s.
Proof. reflexivity. Qed.

Lemma trimStop_before_space (s : string) (d : ascii) :
  lastByte s = Some d -> asciiSpace d = false ->
  trimStop (s ++ " ") = s.
Proof.
  unfold lastByte, trimStop. intros Hlast Hd.
  rewrite list_ascii_of_string_app, rev_app_distr. cbn.
  destruct (rev (list_ascii_of_string s)) as [|x l] eqn:E; [discriminate|].
  inversion Hlast; subst x. cbn. rewrite Hd.
  rewrite <- E, rev_involutive. apply string_of_list_ascii_of_string.
Qed.

Lemma TrimSpace_before_space (s : string) : tidy s -> TrimSpace (s ++ " ") = s.
Proof.
  intros [Hfirst Hlast]. destruct s as [|c s]; [contradiction|].
  destruct (lastByte (String c s)) as [d|] eqn:Ed; [|contradiction].
  apply plainByte_inv in Hfirst, Hlast.
  destruct Hfirst as [Hc1 Hc2], Hlast as [Hd1 Hd2].
  unfold TrimSpace. cbn [append trimStart]. rewrite Hc1, Hc2.
  change (String c (s ++ " ")) with (String c s ++ " ")%string.
  rewrite (trimStop_before_space _ _ Ed Hd1), Ed, Hd2. reflexivity.
Qed.

Lemma Split_one_line (s : string) (sep : ascii) :
  without sep s -> Split s sep = [s].
Proof.
  unfold without, bytes. induction s as [|c s IH]; cbn; intros Hno;
    [reflexivity|].
  destruct (Ascii.eqb_spec c sep) as [->|Hne]; [tauto|].
  rewrite IH by tauto. reflexivity.
Qed.

Lemma without_cons (sep c : ascii) (s : string) :
  c <> sep -> without sep s -> without sep (String c s).
Proof. unfold without, bytes. cbn. intros Hne Hs [E|Hin]; auto. Qed.

Lemma without_app (sep : ascii) (s t : string) :
  without sep s -> without sep t -> without sep (s ++ t).
Proof.
  unfold without, bytes. rewrite list_ascii_of_string_app.
  intros Hs Ht Hin. apply in_app_or in Hin. tauto.
Qed.

Lemma Index_absent (s : string) (sep : ascii) :
  without sep s -> Index s sep = -1.
Proof.
  unfold without, bytes. induction s as [|c s IH]; cbn; intros Hno;
    [reflexivity|].
  destruct (Ascii.eqb_spec c sep) as [->|Hne]; [tauto|].
  rewrite IH by tauto. reflexivity.
Qed.

Lemma Index_first (s rest : string) (sep : ascii) :
  without sep s ->
  Index (s ++ String sep rest) sep = Z.of_nat (String.length s).
Proof.
  unfold without, bytes. induction s as [|c s IH]; cbn -[Z.of_nat];
    intros Hno.
  - now rewrite Ascii.eqb_refl.
  - destruct (Ascii.eqb_spec c sep) as [->|Hne]; [cbn in Hno; tauto|].
    rewrite IH by (cbn in Hno; tauto).
    destruct (Z.of_nat (String.length s) <? 0) eqn:E;
      [apply Z.ltb_lt in E|]; lia.
Qed.

Lemma sliceTo_app (s rest : string) :
  sliceTo (String.length s) (s ++ rest) = s.
Proof.
  induction s as [|c s IH]; cbn; [now destruct rest | now rewrite IH].
Qed.

Lemma plainByte_not_newline (c : ascii) :
  plainByte c = true -> c <> "010"%char.
Proof. intros Hc ->. discriminate. Qed.

Lemma tidy_marked (c sep : ascii) (body : string) :
  plainByte c = true -> tidy body ->
  tidy (String c (String sep (String " " body))).
Proof.
  intros Hc [Hfirst Hlast]. split; [exact Hc|].
  destruct (lastByte body) as [d|] eqn:Ed; [|contradiction].
  now rewrite (lastByte_cons c _ d
                 (lastByte_cons sep _ d (lastByte_cons " " _ d Ed))).
Qed.

(** An enumeration marker is stripped: a line made of any plain byte (a
    digit, or not), a '.' or a ')', a space and a tidy text yields that
    text as its question, and as its insight when the text has no '('. *)
Theorem parsers_strip_enumeration_marker (c sep : ascii) (body : string) :
  plainByte c = true ->
  sep = "."%char \/ sep = ")"%char ->
  tidy body ->
  without "010" body ->
  let line := String c (String sep (String " " body)) in
  parseQuestions line = [body]
  /\ (without "(" body -> parseInsights line = [body]).
Proof.
  intros Hc Hsep Hbody Hnl line.
  assert (Htidy : tidy line) by now apply tidy_marked.
  assert (Hone : without "010" line).
  { unfold line. apply without_cons; [now apply plainByte_not_newline|].
    apply without_cons; [destruct Hsep; subst sep; discriminate|].
    apply without_cons; [discriminate | exact Hnl]. }
  assert (Hnum : numbered line = true).
  { destruct body as [|b body]; [destruct Hbody; contradiction|].
    unfold numbered, line. cbn. destruct Hsep; now subst sep. }
  assert (Hne : (line =? "")%string = false) by reflexivity.
  pose proof (TrimSpace_tidy line Htidy) as Htrim.
  pose proof (TrimSpace_tidy body Hbody) as Htrimb.
  unfold parseQuestions, parseInsights. rewrite (Split_one_line _ _ Hone).
  cbn [parseQuestionsLoop parseInsightsLoop]. rewrite Htrim, Hne, Hnum.
  change (sliceFrom 2 line) with (String " " body).
  rewrite TrimSpace_after_space, Htrimb. split; [reflexivity|].
  intros Hparen. unfold beforeParen. rewrite (Index_absent _ _ Hparen).
  cbn. now rewrite Htrimb.
Qed.

(** The citation of an insight is cut off: a line made of a marker, a
    tidy text without '(' and, after a space, a parenthesised citation
    yields that text as its insight. *)
Theorem parseInsights_cuts_citation (c sep : ascii) (text cite : string)
        (d : ascii) :
  plainByte c = true ->
  sep = "."%char \/ sep = ")"%char ->
  tidy text ->
  without "010" text -> without "(" text ->
  without "010" cite ->
  lastByte (String "(" cite) = Some d -> plainByte d = true ->
  parseInsights
    (String c (String sep (String " " (text ++ String " " (String "(" cite)))))
  = [text].
Proof.
  intros Hc Hsep Htext Hnl Hparen Hnlc Hlast Hd.
  set (body := (text ++ String " " (String "(" cite))%string).
  assert (Hbody : tidy body).
  { destruct Htext as [Hfirst _]. split.
    - unfold body. destruct text; [contradiction | exact Hfirst].
    - unfold body.
      rewrite (lastByte_app text _ d (lastByte_cons " " _ d Hlast)).
      exact Hd. }
  assert (Hone : without "010" body).
  { unfold body. apply without_app; [exact Hnl|].
    apply without_cons; [discriminate|].
    apply without_cons; [discriminate | exact Hnlc]. }
  set (line := String c (String sep (String " " body))).
  assert (Htidy : tidy line) by now apply tidy_marked.
  assert (Hline : without "010" line).
  { unfold line. apply without_cons; [now apply plainByte_not_newline|].
    apply without_cons; [destruct Hsep; subst sep; discriminate|].
    apply without_cons; [discriminate | exact Hone]. }
  assert (Hnum : numbered line = true).
  { assert (Hb : body <> EmptyString)
      by (destruct Hbody as [Hb _]; destruct body; [contradiction|discriminate]).
    destruct body as [|b body']; [contradiction|].
    unfold numbered, line. cbn. destruct Hsep; now subst sep. }
  assert (Hne : (line =? "")%string = false) by reflexivity.
  unfold parseInsights. rewrite (Split_one_line _ _ Hline).
  cbn [parseInsightsLoop]. rewrite (TrimSpace_tidy line Htidy), Hne, Hnum.
  change (sliceFrom 2 line) with (String " " body).
  rewrite TrimSpace_after_space, (TrimSpace_tidy body Hbody).
  unfold beforeParen, body.
  change (text ++ String " " (String "(" cite))%string
    with (text ++ (" " ++ String "(" cite))%string.
  rewrite append_assoc.
  assert (Hparen' : without "(" (text ++ " ")).
  { apply without_app; [exact Hparen|]. unfold without, bytes. cbn.
    intros [E|[]]. discriminate. }
  rewrite (Index_first _ _ _ Hparen').
  replace (Z.of_nat (String.length (text ++ " ")) =? -1) with false
    by (symmetry; apply Z.eqb_neq; lia).
  rewrite Nat2Z.id, sliceTo_app. cbn [app].
  now rewrite (TrimSpace_before_space text Htext).
Qed.
End ParserProperties.

(** ** The plan *)

Section SearchProperties.
Variable f : nat -> option bool.
Variable n : nat.
Hypothesis f_defined : forall k, (k < n)%nat -> f k <> None.

(** The invariant of the binary search: [f] is false just before [i] and
    true at [j], whatever [f] is in between. *)
Lemma searchLoop_spec (fuel : nat) :
  forall i j,
    (j - i <= fuel)%nat -> (i <= j)%nat -> (j <= n)%nat ->
    (i = 0%nat \/ f (i - 1) = Some false) ->
    (j = n \/ f j = Some true) ->
    exists r,
      searchLoop fuel f i j = Some r
      /\ (i <= r)%nat /\ (r <= j)%nat
      /\ (r = 0%nat \/ f (r - 1) = Some false)
      /\ (r = n \/ f r = Some true).
Proof.
  induction fuel as [|fuel IH]; intros i j Hfuel Hij Hjn Hi Hj;
    cbn [searchLoop].
  - exists i. assert (i = j) by lia. subst j.
    destruct (i <? i)%nat; repeat split; auto.
  - destruct (i <? j)%nat eqn:Elt.
    + apply Nat.ltb_lt in Elt.
      assert (Hh : (i <= (i + j) / 2 /\ (i + j) / 2 < j)%nat).
      { split.
        - apply Nat.div_le_lower_bound; lia.
        - apply Nat.Div0.div_lt_upper_bound; lia. }
      destruct (f ((i + j) / 2)) as [[|]|] eqn:Ef.
      * destruct (IH i ((i + j) / 2)%nat) as (r & Hr & H1 & H2 & H3 & H4);
          try lia; auto.
        exists r. repeat split; auto; lia.
      * destruct (IH ((i + j) / 2 + 1)%nat j)
          as (r & Hr & H1 & H2 & H3 & H4); try lia; auto.
        { right. now replace ((i + j) / 2 + 1 - 1)%nat
                   with ((i + j) / 2)%nat by lia. }
        exists r. repeat split; auto; lia.
      * exfalso. apply (f_defined ((i + j) / 2)%nat); [lia | exact Ef].
    + apply Nat.ltb_ge in Elt. exists i. assert (i = j) by lia. subst j.
      repeat split; auto.
Qed.

(** [sort.Search(n, f)] returns, without a panic, an index [r <= n] such
    that [f] is false at [r - 1] (or [r] is 0) and true at [r] (or [r] is
    [n]): for an [f] that is false and then true, the first index at
    which it is true. *)
Lemma sort_Search_spec :
  exists r,
    sort_Search n f = Some r
    /\ (r <= n)%nat
    /\ (r = 0%nat \/ f (r - 1) = Some false)
    /\ (r = n \/ f r = Some true).
Proof.
  destruct (searchLoop_spec n 0 n) as (r & Hr & _ & H2 & H3 & H4);
    try lia; auto.
  exists r. auto.
Qed.
End SearchProperties.

Section SortedLists.
Context {A : Type} (R : A -> A -> Prop).

Lemma StronglySorted_nth (l : list A) :
  StronglySorted R l ->
  forall i j x y,
    (i < j)%nat -> nth_error l i = Some x -> nth_error l j = Some y -> R x y.
Proof.
  induction 1 as [|a l Hs IH Hall]; intros [|i] [|j] x y Hij Hx Hy;
    cbn in *; try discriminate; try lia.
  - inversion Hx; subst. rewrite Forall_forall in Hall. apply Hall.
    eapply nth_error_In; eauto.
  - eapply (IH i j); eauto. lia.
Qed.

Lemma Forall_firstn_nth (P : A -> Prop) (l : list A) (r : nat) :
  (forall i x, (i < r)%nat -> nth_error l i = Some x -> P x) ->
  Forall P (firstn r l).
Proof.
  revert r. induction l as [|a l IH]; intros [|r] Hp; cbn; constructor.
  - apply (Hp 0%nat); [lia | reflexivity].
  - apply IH. intros i x Hi Hx. apply (Hp (S i)); [lia | exact Hx].
Qed.

Lemma Forall_skipn_nth (P : A -> Prop) (l : list A) (r : nat) :
  (forall i x, (r <= i)%nat -> nth_error l i = Some x -> P x) ->
  Forall P (skipn r l).
Proof.
  revert r. induction l as [|a l IH]; intros [|r] Hp; cbn.
  - constructor.
  - constructor.
  - constructor.
    + apply (Hp 0%nat); [lia | reflexivity].
    + apply (IH 0%nat). intros i x Hi Hx. apply (Hp (S i)); [lia | exact Hx].
  - apply IH. intros i x Hi Hx. apply (Hp (S i)); [lia | exact Hx].
Qed.

Lemma StronglySorted_app_inv (l1 l2 : list A) :
  StronglySorted R (l1 ++ l2) ->
  StronglySorted R l1 /\ StronglySorted R l2.
Proof.
  induction l1 as [|a l1 IH]; cbn; intros Hs.
  - split; [constructor | exact Hs].
  - inversion Hs as [|? ? Hs' Hall]; subst.
    destruct (IH Hs') as [H1 H2]. split; [|exact H2].
    constructor; [exact H1|]. apply Forall_app in Hall. tauto.
Qed.

Lemma StronglySorted_remove (l1 l2 : list A) (x : A) :
  StronglySorted R (l1 ++ x :: l2) -> StronglySorted R (l1 ++ l2).
Proof.
  induction l1 as [|a l1 IH]; cbn; intros Hs;
    inversion Hs as [|? ? Hs' Hall]; subst; [exact Hs'|].
  constructor; [auto|]. apply Forall_app in Hall. destruct Hall as [H1 H2].
  inversion H2; subst. apply Forall_app. auto.
Qed.

Lemma StronglySorted_app (l1 l2 : list A) :
  StronglySorted R l1 -> StronglySorted R l2 ->
  (forall x y, In x l1 -> In y l2 -> R x y) ->
  StronglySorted R (l1 ++ l2).
Proof.
  induction 1 as [|a l1 Hs IH Hall]; cbn; intros H2 Hcross; [exact H2|].
  constructor.
  - apply IH; [exact H2|]. intros x y Hx Hy. apply Hcross; [now right|exact Hy].
  - apply Forall_app. split; [exact Hall|].
    apply Forall_forall. intros y Hy. apply Hcross; [now left | exact Hy].
Qed.
End SortedLists.

Section PlanProperties.
Import plan.

Lemma chronological_strongly (l : list Action) :
  chronological l <->
  StronglySorted (fun x y => StartTime x <= StartTime y) l.
Proof.
  split.
  - apply Sorted_StronglySorted. intros x y z; cbn; lia.
  - apply StronglySorted_Sorted.
Qed.

Lemma startsAfter_defined (p : Plan) (a : Action) (k : nat) :
  (k < List.length (actions p))%nat -> startsAfter p a k <> None.
Proof.
  intros Hk. unfold startsAfter.
  destruct (nth_error (actions p) k) eqn:E; [discriminate|].
  apply nth_error_None in E. lia.
Qed.

(** [AddAction] never panics. It gives the action a new identifier and
    inserts it between the actions of the plan, which keep their order.
    In a plan in chronological order the place is after every action that
    starts no later than the new one and before every action that starts
    later, so the plan stays in chronological order. *)
Theorem AddAction_inserts_in_order {W} `{UUIDs W} (a : Action) (w w' : W)
        (p p' : Plan) (o : outcome unit) :
  AddAction a (w, p) = ((w', p'), o) ->
  let a' := withID (snd (newUUID w)) a in
  o = Ok tt
  /\ w' = fst (newUUID w)
  /\ exists before after,
      actions p = before ++ after
      /\ actions p' = before ++ a' :: after
      /\ (chronological (actions p) ->
          Forall (fun x => StartTime x <= StartTime a) before
          /\ Forall (fun x => StartTime a < StartTime x) after
          /\ chronological (actions p')).
Proof.
  unfold AddAction. destruct (newUUID w) as [w1 id] eqn:Eid. cbn [snd fst].
  destruct (sort_Search_spec (startsAfter p (withID id a))
              (List.length (actions p))
              (startsAfter_defined p (withID id a)))
    as (r & Hr & Hle & Hlow & Hhigh).
  rewrite Hr. intros Heq; inversion Heq; subst; clear Heq. cbv zeta.
  split; [reflexivity|]. split; [reflexivity|].
  exists (firstn r (actions p)), (skipn r (actions p)).
  split; [now rewrite firstn_skipn|]. split; [reflexivity|].
  intros Hchron. apply chronological_strongly in Hchron.
  assert (Hbefore : Forall (fun x => StartTime x <= StartTime a)
                      (firstn r (actions p))).
  { apply Forall_firstn_nth. intros i x Hi Hx.
    destruct Hlow as [->|Hlow]; [lia|].
    unfold startsAfter in Hlow.
    destruct (nth_error (actions p) (r - 1)) as [z|] eqn:Ez; [|discriminate].
    inversion Hlow as [Hz]. apply Z.ltb_ge in Hz. cbn in Hz.
    destruct (Nat.eq_dec i (r - 1)) as [->|Hne].
    - rewrite Ez in Hx. inversion Hx; subst. exact Hz.
    - pose proof (StronglySorted_nth _ _ Hchron i (r - 1)%nat x z
                    ltac:(lia) Hx Ez). cbn in *. lia. }
  assert (Hafter : Forall (fun x => StartTime a < StartTime x)
                     (skipn r (actions p))).
  { apply Forall_skipn_nth. intros i x Hi Hx.
    destruct Hhigh as [->|Hhigh].
    - assert (nth_error (actions p) i = None)
        by (apply nth_error_None; lia). congruence.
    - unfold startsAfter in Hhigh.
      destruct (nth_error (actions p) r) as [z|] eqn:Ez; [|discriminate].
      inversion Hhigh as [Hz]. apply Z.ltb_lt in Hz. cbn in Hz.
      destruct (Nat.eq_dec i r) as [->|Hne].
      + rewrite Ez in Hx. inversion Hx; subst. exact Hz.
      + pose proof (StronglySorted_nth _ _ Hchron r i z x
                      ltac:(lia) Ez Hx). cbn in *. lia. }
  split; [exact Hbefore|]. split; [exact Hafter|].
  apply chronological_strongly.
  rewrite <- (firstn_skipn r (actions p)) in Hchron.
  apply StronglySorted_app_inv in Hchron. destruct Hchron as [S1 S2].
  apply StronglySorted_app; [exact S1| |].
  - constructor; [exact S2|].
    eapply Forall_impl; [|exact Hafter]. cbn. intros; lia.
  - rewrite Forall_forall in Hbefore, Hafter.
    intros x y Hx [<-|Hy]; cbn.
    + now apply Hbefore.
    + specialize (Hbefore x Hx). specialize (Hafter y Hy). lia.
Qed.

Lemma removeLoop_spec (id : string) (rest : list Action) :
  forall seen,
    match removeLoop id seen rest with
    | Some remaining =>
        exists before a after,
          rest = before ++ a :: after
          /\ ID a = id
          /\ Forall (fun b => ID b <> id) before
          /\ remaining = seen ++ before ++ after
    | None => Forall (fun b => ID b <> id) rest
    end.
Proof.
  induction rest as [|x rest IH]; intros seen; cbn; [constructor|].
  destruct (String.eqb_spec (ID x) id) as [E|E].
  - exists [], x, rest. repeat split; auto.
  - specialize (IH (seen ++ [x])).
    destruct (removeLoop id (seen ++ [x]) rest) as [remaining|].
    + destruct IH as (before & a & after & Er & Ea & Fb & Em).
      exists (x :: before), a, after. repeat split; auto.
      * cbn. now rewrite Er.
      * rewrite Em, <- app_assoc. reflexivity.
    + constructor; auto.
Qed.

(** [RemoveAction] removes the first action that has the identifier and
    leaves the others in their order; when no action has it, it returns
    an error and leaves the plan as it was. Either way a plan in
    chronological order stays in chronological order. *)
Theorem RemoveAction_removes_first_match (id : string) (p p' : Plan)
        (o : outcome unit) :
  RemoveAction id p = (p', o) ->
  ((o = Ok tt
    /\ exists before a after,
        actions p = before ++ a :: after
        /\ ID a = id
        /\ Forall (fun b => ID b <> id) before
        /\ actions p' = before ++ after)
   \/ (o = Fail (Err "action id not found")
       /\ p' = p
       /\ Forall (fun b => ID b <> id) (actions p)))
  /\ (chronological (actions p) -> chronological (actions p')).
Proof.
  unfold RemoveAction. pose proof (removeLoop_spec id (actions p) []) as Hspec.
  destruct (removeLoop id [] (actions p)) as [remaining|];
    intros Heq; inversion Heq; subst; clear Heq.
  - destruct Hspec as (before & a & after & Ep & Ea & Fb & Em). cbn in Em.
    split.
    + left. split; [reflexivity|]. exists before, a, after. auto.
    + cbn. rewrite Ep, Em. rewrite !chronological_strongly.
      apply StronglySorted_remove.
  - split; [right; auto | auto].
Qed.

(** [SetActions] puts the actions it is given in chronological order,
    all of them and no other. *)
Theorem SetActions_sorts `{GoLibrary} (p : Plan) (acts : list Action) :
  sortSliceContract ->
  Permutation acts (actions (SetActions p acts))
  /\ chronological (actions (SetActions p acts)).
Proof.
  intros Hsort. destruct (Hsort Action startsBefore acts) as [Hperm Hsorted].
  split; [exact Hperm|]. cbn.
  assert (Hord : strictWeakOrder startsBefore acts).
  { unfold startsBefore. repeat split; intros.
    - apply Z.ltb_irrefl.
    - rewrite Z.ltb_lt in *. lia.
    - rewrite Z.ltb_ge in *. lia. }
  specialize (Hsorted Hord).
  eapply Sorted_weaken with (ok := fun _ => True); [|apply Forall_forall; auto|exact Hsorted].
  intros x y _ _ Hxy. unfold startsBefore in Hxy.
  now apply Z.ltb_ge in Hxy.
Qed.

(** [NextAction] panics on an empty plan and on no other; in a plan in
    chronological order the action it returns starts no later than any
    action of the plan. (It does not look at the current time.) *)
Theorem NextAction_is_earliest (p : Plan) :
  (NextAction p = None <-> actions p = [])
  /\ (chronological (actions p) ->
      forall a, NextAction p = Some a ->
      forall b, In b (actions p) -> StartTime a <= StartTime b).
Proof.
  unfold NextAction. split.
  - destruct (actions p); cbn; split; intros; congruence.
  - intros Hchron a Ha b Hb. apply chronological_strongly in Hchron.
    destruct (actions p) as [|x l]; [discriminate|]. cbn in Ha.
    inversion Ha; subst x. destruct Hb as [->|Hb]; [lia|].
    inversion Hchron as [|? ? _ Hall]; subst.
    rewrite Forall_forall in Hall. now apply Hall.
Qed.

(** Removing the action [AddAction] has just added gives the plan back,
    when no action of the plan had the new identifier already. *)
Theorem AddAction_then_RemoveAction {W} `{UUIDs W} (a : Action) (w w' : W)
        (p p' : Plan) (o : outcome unit) :
  AddAction a (w, p) = ((w', p'), o) ->
  Forall (fun b => ID b <> snd (newUUID w)) (actions p) ->
  RemoveAction (snd (newUUID w)) p' = (p, Ok tt).
Proof.
  intros Hadd Hfresh.
  destruct (AddAction_inserts_in_order a w w' p p' o Hadd)
    as (_ & _ & before & after & Ep & Ep' & _).
  unfold RemoveAction.
  pose proof (removeLoop_spec (snd (newUUID w)) (actions p') []) as Hspec.
  rewrite Ep in Hfresh. apply Forall_app in Hfresh.
  destruct Hfresh as [Fb Fa].
  destruct (removeLoop (snd (newUUID w)) [] (actions p')) as [remaining|].
  - destruct Hspec as (before' & x & after' & E & Ex & Fb' & Em).
    cbn in Em. rewrite Ep' in E.
    assert (Hsame : before' = before /\ after' = after).
    { clear -E Ex Fb Fb'. revert before' E Fb'.
      induction before as [|b before IH]; intros [|b' before'] E Fb'.
      - inversion E; auto.
      - exfalso. inversion E; subst. inversion Fb'; subst. cbn in *. auto.
      - exfalso. inversion E; subst. inversion Fb; subst. auto.
      - inversion E; subst. inversion Fb; inversion Fb'; subst.
        destruct (IH ltac:(assumption) before' ltac:(assumption)
                    ltac:(assumption)) as [-> ->]. auto. }
    destruct Hsame as [-> ->]. rewrite Em, <- Ep. now destruct p.
  - exfalso. rewrite Ep' in Hspec. apply Forall_app in Hspec.
    destruct Hspec as [_ Hx]. inversion Hx; subst. cbn in *. auto.
Qed.
End PlanProperties.

(** ** The properties above, on examples *)

Lemma AddMemory_stores_what_the_service_returns_witness :
  let s0 := (sim.start 0 1, sim.emptyStream sim.steady) in
  let run := @memory.AddMemory _ sim.clock sim.go "a walk in the park" s0 in
  map memory.Importance (memory.Memories (snd (fst run))) = [F64.of_Z 8]
  /\ exists w1 w2 resp choice m,
      memory.getEmbedding "a walk in the park" (memory.Client (snd s0))
        (fst s0) = (w1, Ok (memory.Embedding m))
      /\ memory.CreateChatCompletion (memory.Client (snd s0))
           (openai.chat memory.importancePrompt "a walk in the park") w1
         = (w2, Ok resp)
      /\ hd_error (openai.Choices resp) = Some choice
      /\ @strconv_ParseFloat sim.go
           (@TrimSpace sim.go (openai.Content (openai.Message choice)))
         = inr (memory.Importance m)
      /\ memory.Description m = "a walk in the park"%string
      /\ memory.Memories (snd (fst run)) = memory.Memories (snd s0) ++ [m]
      /\ memory.Client (snd (fst run)) = memory.Client (snd s0).
Proof.
  intros s0 run. split; [vm_compute; reflexivity|].
  apply (@AddMemory_stores_what_the_service_returns _ sim.clock sim.go
           "a walk in the park" (fst s0) (fst (fst run)) (snd s0)
           (snd (fst run))).
  vm_compute; reflexivity.
Defined.

Lemma AddMemory_error_names_the_step_witness :
  let s0 := (sim.start 0 1, sim.emptyStream sim.noEmbeddings) in
  let run := @memory.AddMemory _ sim.clock sim.go "a walk in the park" s0 in
  let e := Wrap "failed to get embedding: " (Err "service unavailable") in
  snd run = Fail e
  /\ ((exists e0,
         memory.getEmbedding "a walk in the park" (memory.Client (snd s0))
           (fst s0) = (fst (fst run), Fail e0)
         /\ e = Wrap "failed to get embedding: " e0)
      \/ (exists w1 embed e0,
            memory.getEmbedding "a walk in the park" (memory.Client (snd s0))
              (fst s0) = (w1, Ok embed)
            /\ @memory.rateImportance _ sim.go "a walk in the park"
                 (memory.Client (snd s0)) w1 = (fst (fst run), Fail e0)
            /\ e = Wrap "failed to rate importance: " e0)).
Proof.
  intros s0 run e. split; [vm_compute; reflexivity|].
  apply (@AddMemory_error_names_the_step _ sim.clock sim.go
           "a walk in the park" (fst s0) (fst (fst run)) (snd s0)
           (snd (fst run)) e).
  vm_compute; reflexivity.
Defined.

Lemma RetrieveMemories_error_witness :
  let sc := sim.thirdEmbeddingFails in
  let ms := sim.streamOf sc [sim.record "first" 0; sim.record "second" 0] in
  let w := sim.start 100 1 in
  let run := @memory.RetrieveMemories _ sim.clock sim.go "query" (w, ms) in
  let e := Err "service unavailable" in
  snd run = Fail e
  /\ ((memory.getEmbedding "query" (memory.Client ms) w
       = (fst (fst run), Fail e) /\ snd (fst run) = ms)
      \/ (exists done touched m rest w1,
            memory.Memories ms = done ++ m :: rest
            /\ memory.Memories (snd (fst run)) = touched ++ m :: rest
            /\ Forall2 (memory.touchedDuring (memory.Client ms) w)
                 done touched
            /\ memory.during (memory.Client ms) w w1
            /\ memory.getEmbedding (memory.Description m) (memory.Client ms)
                 w1 = (fst (fst run), Fail e))).
Proof.
  intros sc ms w run e. split; [vm_compute; reflexivity|].
  apply (@RetrieveMemories_error _ sim.clock sim.go "query" w
           (fst (fst run)) ms (snd (fst run)) e).
  vm_compute; reflexivity.
Defined.

Lemma RetrieveMemories_returns_every_record_witness :
  let ms := sim.streamOf sim.steady
              [sim.record "first" 0; sim.record "second" 0] in
  let run := @memory.RetrieveMemories _ sim.clock sim.go "query"
               (sim.start 0 0, ms) in
  let out := match snd run with Ok l => l | _ => [] end in
  snd run = Ok out
  /\ Permutation (map memory.Memory out) (memory.Memories ms)
  /\ List.length out = List.length (memory.Memories ms)
  /\ (memory.Memories ms = [] -> out = []).
Proof.
  intros ms run out. split; [vm_compute; reflexivity|].
  apply (@RetrieveMemories_returns_every_record _ sim.clock sim.go "query"
           (sim.start 0 0) (fst (fst run)) ms (snd (fst run)) out);
    [exact insertionSort_contract | vm_compute; reflexivity].
Defined.

Lemma RetrieveMemories_ignores_stored_embeddings_witness :
  let ms1 := sim.streamOf sim.steady [sim.record "first" 0] in
  let ms2 := sim.streamOf sim.steady
               [sim2.recordWith [sim.f32 0; sim.f32 1] "first" 0] in
  let w := sim.start 0 0 in
  let run1 := @memory.RetrieveMemories _ sim.clock sim.go "query" (w, ms1) in
  let run2 := @memory.RetrieveMemories _ sim.clock sim.go "query" (w, ms2) in
  fst (fst run1) = fst (fst run2)
  /\ Forall2 sameButEmbedding (memory.Memories (snd (fst run1)))
       (memory.Memories (snd (fst run2)))
  /\ sameOutcome
       (fun out1 out2 =>
          Permutation (map memory.Score out1) (map memory.Score out2))
       (snd run1) (snd run2).
Proof.
  intros ms1 ms2 w run1 run2.
  apply (@RetrieveMemories_ignores_stored_embeddings _ sim.clock sim.go
           "query" w ms1 ms2 (snd (fst run1)) (snd (fst run2))
           (fst (fst run1)) (fst (fst run2)) (snd run1) (snd run2));
    [exact insertionSort_contract | reflexivity
    | repeat constructor | vm_compute; reflexivity | vm_compute; reflexivity].
Defined.

Lemma Reflect_only_appends_witness :
  let sc := sim.twoQuestions in
  let ms := sim.streamOf sc [sim.record "first" 0] in
  let run := @reflect.Reflect _ sim.clock sim.go (sim.reflector sc) []
               (sim.start 0 1, ms) in
  map memory.Description (memory.Memories (snd (fst run)))
    = ["first"; "I1"; "I2"]%string
  /\ memory.Client (snd (fst run)) = memory.Client ms
  /\ exists kept added,
      memory.Memories (snd (fst run)) = kept ++ added
      /\ Forall2 memory.sameButAccess (memory.Memories ms) kept.
Proof.
  intros sc ms run. split; [vm_compute; reflexivity|].
  apply (@Reflect_only_appends _ sim.clock sim.go (sim.reflector sc) []
           (sim.start 0 1) (fst (fst run)) ms (snd (fst run)) (snd run)).
  vm_compute; reflexivity.
Defined.


Lemma threeByFive_appends (records : list memory.MemoryObject) :
  @appendsReliably _ sim.clock sim.go (sim.streamOf sim2.threeByFive records).
Proof.
  intros description w [c mem] Hc. cbn in Hc. subst c.
  vm_compute. reflexivity.
Qed.

Lemma threeByFive_insights :
  @insightsAre _ sim.go (sim.reflector sim2.threeByFive)
    (fun _ => ["I1"; "I2"; "I3"; "I4"; "I5"]%string).
Proof.
  intros question retrieved w w' insights Hgen.
  vm_compute in Hgen. now inversion Hgen.
Qed.

Lemma Reflect_appends_insights_in_order_witness :
  let sc := sim2.threeByFive in
  let ms := sim.streamOf sc [sim.record "first" 0] in
  let w := sim.start 0 1 in
  let ins := fun _ : string => ["I1"; "I2"; "I3"; "I4"; "I5"]%string in
  let run := @reflect.Reflect _ sim.clock sim.go (sim.reflector sc) []
               (w, ms) in
  List.length (memory.Memories (snd (fst run))) = 16%nat
  /\ descriptions (snd (fst run))
     = descriptions ms ++ flat_map ins ["Q1"; "Q2"; "Q3"]%string
  /\ List.length (memory.Memories (snd (fst run)))
     = (List.length (memory.Memories ms)
        + List.length (flat_map ins ["Q1"; "Q2"; "Q3"]%string))%nat.
Proof.
  intros sc ms w ins run. split; [vm_compute; reflexivity|].
  apply (@Reflect_appends_insights_in_order _ sim.clock sim.go
           (sim.reflector sc) [] ins ["Q1"; "Q2"; "Q3"]%string w
           (fst (@reflect.generateReflectionQuestions _ sim.go []
                   (reflect.Client (sim.reflector sc)) w))
           (fst (fst run)) ms (snd (fst run)));
    [exact (threeByFive_appends _) | exact threeByFive_insights
    | vm_compute; reflexivity | vm_compute; reflexivity].
Defined.

Lemma parsers_blank_output_witness :
  let output := ("  " ++ newline ++ String "009" newline ++ " ")%string in
  @reflect.parseQuestions sim.go output = []
  /\ @reflect.parseInsights sim.go output = [].
Proof.
  intros output.
  apply (@parsers_blank_output sim.go output).
  vm_compute. repeat constructor.
Defined.

Lemma parsers_strip_enumeration_marker_witness :
  @reflect.parseQuestions sim.go "1. Hello world" = ["Hello world"%string]
  /\ (without "(" "Hello world" ->
      @reflect.parseInsights sim.go "1. Hello world"
      = ["Hello world"%string]).
Proof.
  apply (@parsers_strip_enumeration_marker sim.go "1" "." "Hello world").
  - reflexivity.
  - now left.
  - split; vm_compute; reflexivity.
  - unfold without. vm_compute. intuition discriminate.
Defined.

Lemma parseInsights_cuts_citation_witness :
  @reflect.parseInsights sim.go
    "2) Insight text (because of statements 1, 2)"
  = ["Insight text"%string].
Proof.
  apply (@parseInsights_cuts_citation sim.go "2" ")" "Insight text"
           "because of statements 1, 2)" ")").
  - reflexivity.
  - now right.
  - split; vm_compute; reflexivity.
  - unfold without. vm_compute. intuition discriminate.
  - unfold without. vm_compute. intuition discriminate.
  - unfold without. vm_compute. intuition discriminate.
  - vm_compute; reflexivity.
  - reflexivity.
Defined.

Lemma AddAction_inserts_in_order_witness :
  let a := sim2.action "" "call home" 20 in
  let run := @plan.AddAction _ sim2.counter a (7%nat, sim2.day) in
  map plan.ID (plan.actions (snd (fst run)))
    = ["a"; "b"; "c"; "id-7"; "d"]%string
  /\ plan.chronological (plan.actions sim2.day)
  /\ let a' := plan.withID (snd (newUUID 7%nat)) a in
     snd run = Ok tt
     /\ fst (fst run) = fst (newUUID 7%nat)
     /\ exists before after,
         plan.actions sim2.day = before ++ after
         /\ plan.actions (snd (fst run)) = before ++ a' :: after
         /\ (plan.chronological (plan.actions sim2.day) ->
             Forall (fun x => plan.StartTime x <= plan.StartTime a) before
             /\ Forall (fun x => plan.StartTime a < plan.StartTime x) after
             /\ plan.chronological (plan.actions (snd (fst run)))).
Proof.
  intros a run. split; [vm_compute; reflexivity|].
  split; [repeat constructor; cbn; lia|].
  apply (@AddAction_inserts_in_order _ sim2.counter a 7%nat (fst (fst run))
           sim2.day (snd (fst run)) (snd run)).
  vm_compute; reflexivity.
Defined.

Lemma RemoveAction_removes_first_match_witness :
  let run := plan.RemoveAction "b" sim2.day in
  map plan.ID (plan.actions (fst run)) = ["a"; "c"; "d"]%string
  /\ ((snd run = Ok tt
       /\ exists before a after,
           plan.actions sim2.day = before ++ a :: after
           /\ plan.ID a = "b"%string
           /\ Forall (fun b => plan.ID b <> "b"%string) before
           /\ plan.actions (fst run) = before ++ after)
      \/ (snd run = Fail (Err "action id not found")
          /\ fst run = sim2.day
          /\ Forall (fun b => plan.ID b <> "b"%string)
               (plan.actions sim2.day)))
  /\ (plan.chronological (plan.actions sim2.day) ->
      plan.chronological (plan.actions (fst run))).
Proof.
  intros run. split; [vm_compute; reflexivity|].
  apply (RemoveAction_removes_first_match "b" sim2.day (fst run) (snd run)).
  vm_compute; reflexivity.
Defined.

Lemma SetActions_sorts_witness :
  let acts := [sim2.action "d" "lunch" 30; sim2.action "a" "wake up" 10;
               sim2.action "b" "read" 20] in
  let p := @plan.SetActions sim.go {| plan.actions := [] |} acts in
  map plan.ID (plan.actions p) = ["a"; "b"; "d"]%string
  /\ Permutation acts (plan.actions p)
  /\ plan.chronological (plan.actions p).
Proof.
  intros acts p. split; [vm_compute; reflexivity|].
  apply (@SetActions_sorts sim.go {| plan.actions := [] |} acts).
  exact insertionSort_contract.
Defined.

Lemma AddAction_then_RemoveAction_witness :
  let a := sim2.action "" "call home" 20 in
  let run := @plan.AddAction _ sim2.counter a (7%nat, sim2.day) in
  plan.RemoveAction (snd (newUUID 7%nat)) (snd (fst run))
  = (sim2.day, Ok tt).
Proof.
  intros a run.
  apply (@AddAction_then_RemoveAction _ sim2.counter a 7%nat (fst (fst run))
           sim2.day (snd (fst run)) (snd run)).
  - vm_compute; reflexivity.
  - repeat constructor; vm_compute; discriminate.
Defined.
